(** * Voice assistant: session pipeline and connection lifecycle

    A shallow embedding of [prompts.py], [backend.py]
    ([VoiceAssistantBackend]) and the WebSocket handler of [app.py],
    followed by the properties of the conversation log, the
    transcribe -> generate -> synthesize pipeline, the export of a
    conversation and the session registry.

    The three network services, the clock, the file system and the base64
    codec are not part of the repository; they are gathered in the record
    [Env] and every statement holds for all of them.  [init] and
    [on_connect] are the constructor and the endpoint of a process whose
    three API keys are set; the check of the keys, and the temporary file
    of the transcription, are embedded apart ([VoiceAssistantBackend],
    [websocket_accept], [transcribe_audio_files]). *)

From stdpp Require Import base option strings list gmap pretty.

Local Open Scope string_scope.
Local Open Scope list_scope.
Local Open Scope nat_scope.

(** ** prompts.py *)

Module prompts.

Definition WELCOME_MESSAGE : string :=
  "Hello! I'm your AI voice assistant. I'm here to help you with any questions or conversations you'd like to have. How can I assist you today?".

Definition SYSTEM_PROMPT : string :=
  "You are a helpful, friendly, and conversational AI voice assistant. 

Key guidelines:
- Keep responses concise and natural for voice conversation (2-4 sentences typically)
- Be warm and personable in your tone
- Ask clarifying questions when needed
- Avoid overly technical jargon unless the user is technical
- If you don't know something, be honest about it
- For long explanations, break them into digestible chunks
- Use conversational language, as if speaking to a friend

Remember: Your responses will be spoken aloud, so write in a way that sounds natural when read by text-to-speech.".

Definition MAX_CONVERSATION_HISTORY : nat := 10.

End prompts.

Export prompts.

(** ** Data *)

(** [bytes] objects. *)
Abbreviation bytes := (list Byte.byte).

(** The values the key ["role"] takes in the code. *)
Inductive Role := system | user | assistant.

Global Instance Role_eq_dec : EqDecision Role.
Proof. solve_decision. Defined.

(** An entry of [conversation_history].  The dicts built by the code have
    the keys ["role"] and ["content"] always, ["timestamp"] on every entry
    but the system prompt, and ["type"] on the welcome entry only. *)
Record Message := {
  role : Role;
  content : string;
  timestamp : option string;
  type : option string;
}.

Global Instance Message_eq_dec : EqDecision Message.
Proof. solve_decision. Defined.

(** An entry of [api_messages]: role and content only. *)
Record ApiMessage := {
  api_role : Role;
  api_content : string;
}.

Global Instance ApiMessage_eq_dec : EqDecision ApiMessage.
Proof. solve_decision. Defined.

(** The dict [conversation_data] that [save_conversation] dumps as JSON. *)
Record ConversationData := {
  data_session_id : string;
  start_time : option string;
  end_time : string;
  messages : list Message;
}.

Global Instance ConversationData_eq_dec : EqDecision ConversationData.
Proof. solve_decision. Defined.

(** The attributes of a [VoiceAssistantBackend] that change or are read
    after construction. *)
Record Backend := {
  conversation_history : list Message;
  session_id : string;
}.

(** ** The outside world *)

(** One call of an external service or of the file system, with its
    outcome ([None]: the call raised). *)
Inductive Call :=
| Transcribe (audio_data : bytes) (outcome : option (option string))
| ChatCompletion (api_messages : list ApiMessage) (outcome : option string)
| TextToSpeech (text : string) (outcome : option (list bytes))
| WriteFile (filename : string) (data : ConversationData) (ok : bool).

(** What lies outside the process.  [tick] counts the interactions with
    the outside so far; the answer of a service may depend on it, so the
    same request can succeed once and fail the next time.  [files] holds
    the JSON documents written so far and [calls] the calls made, oldest
    first. *)
Record World := {
  tick : nat;
  files : gmap string ConversationData;
  calls : list Call;
}.

(** The collaborators, as functions of the tick and of the request.
    - [now_isoformat], [now_strftime]: [datetime.now()] rendered with
      [isoformat()] and with [strftime("%Y%m%d_%H%M%S")];
    - [transcriber_transcribe]: AssemblyAI, [None] when anything in the
      [try] block raises, otherwise [transcript.text], itself optional;
    - [chat_completions_create]: OpenAI, [None] when the call raises,
      otherwise the content of the first choice;
    - [text_to_speech_convert]: ElevenLabs, [None] when the call or the
      iteration over the chunks raises, otherwise the chunks;
    - [file_write]: whether opening and dumping to the file succeeds;
    - [b64encode], [b64decode]: the transport encoding of audio, decoding
      answers with the text of the exception on malformed input. *)
Record Env := {
  now_isoformat : nat → string;
  now_strftime : nat → string;
  transcriber_transcribe : nat → bytes → option (option string);
  chat_completions_create : nat → list ApiMessage → option string;
  text_to_speech_convert : nat → string → option (list bytes);
  file_write : nat → string → bool;
  b64encode : bytes → string;
  b64decode : string → bytes + string;
}.

(** ** State and exceptions

    A method runs on the pair of its object and the world.  It returns a
    value or raises an exception, of which the embedding keeps [str(e)],
    and the effects made before raising stay. *)

Inductive Outcome (A : Type) :=
| Returned (a : A)
| Raised (e : string).
Arguments Returned {A} a.
Arguments Raised {A} e.

Definition State : Type := Backend * World.

Definition M (A : Type) : Type := State → Outcome A * State.

Global Instance M_ret : MRet M := λ A a s, (Returned a, s).

Global Instance M_bind : MBind M := λ A B f m s,
  match m s with
  | (Returned a, s') => f a s'
  | (Raised e, s') => (Raised e, s')
  end.

(** [try: body except Exception as e: handler] *)
Definition try_except {A} (body : M A) (handler : string → M A) : M A := λ s,
  match body s with
  | (Returned a, s') => (Returned a, s')
  | (Raised e, s') => handler e s'
  end.

(** The text of an exception raised inside a service.  Every handler that
    can receive it only prints it. *)
Definition service_error : string := "service error".

Definition of_service {A} (r : option A) : Outcome A :=
  match r with
  | Some a => Returned a
  | None => Raised service_error
  end.

(** Python truthiness of [bytes] and [str]. *)
Definition truthy {A} (l : list A) : bool :=
  match l with [] => false | _ => true end.

Definition truthy_str (s : string) : bool :=
  match s with EmptyString => false | _ => true end.

(** [l[-k:]] for a non-negative [k]: the last [k] elements, the whole list
    when [k] exceeds the length and also when [k] is 0 (as [-0] is [0]). *)
Definition slice_last {A} (k : nat) (l : list A) : list A :=
  match k with
  | O => l
  | _ => drop (length l - k) l
  end.

(** ** backend.py *)

(** Line 119, the reply of [get_llm_response] when the call raised. *)
Definition llm_error_reply : string :=
  "I apologize, but I'm having trouble processing that right now. Could you please try again?".

(** Lines 88-92: role and content of every entry whose role is one of the
    three. *)
Definition to_api (msg : Message) : ApiMessage :=
  {| api_role := role msg; api_content := content msg |}.

Definition api_view (history : list Message) : list ApiMessage :=
  to_api <$> filter (λ msg, role msg ∈ [system; user; assistant]) history.

(** Lines 95-96 for a cap [n]; [api_messages[0]] raises [IndexError] on an
    empty list. *)
Definition keep_recent (n : nat) (api_messages : list ApiMessage)
    : Outcome (list ApiMessage) :=
  if decide (n + 1 < length api_messages) then
    match api_messages with
    | first :: _ => Returned (first :: slice_last n api_messages)
    | [] => Raised "list index out of range"
    end
  else Returned api_messages.

(** The messages [get_llm_response] sends for a log [history]. *)
Definition context_window (history : list Message) : Outcome (list ApiMessage) :=
  keep_recent MAX_CONVERSATION_HISTORY (api_view history).

(** Line 161. *)
Definition conversation_filename (sid : string) : string :=
  "conversation_" +:+ sid +:+ ".json".

(** Lines 168-171. *)
Definition saved_messages (history : list Message) : list Message :=
  filter (λ msg, role msg ≠ system) history.

Section backend.

Context (E : Env).

(** *** Primitive effects *)

Definition advance (c : option Call) (w : World) : World :=
  {| tick := S (tick w);
     files := files w;
     calls := match c with Some c => calls w ++ [c] | None => calls w end |}.

(** [datetime.now().isoformat()] *)
Definition datetime_now : M string := λ '(b, w),
  (Returned (now_isoformat E (tick w)), (b, advance None w)).

(** [self.conversation_history.append(msg)] *)
Definition history_append (msg : Message) : M () := λ '(b, w),
  (Returned (),
   ({| conversation_history := conversation_history b ++ [msg];
       session_id := session_id b |}, w)).

Definition get_history : M (list Message) := λ '(b, w),
  (Returned (conversation_history b), (b, w)).

Definition get_session_id : M string := λ '(b, w),
  (Returned (session_id b), (b, w)).

Definition lift {A} (r : Outcome A) : M A := λ s, (r, s).

(** Lines 56-67: the audio goes through a temporary file, which is removed
    again, to the transcriber; the temporary file is not kept in [files]. *)
Definition aai_transcribe (audio_data : bytes) : M (option string) := λ '(b, w),
  let r := transcriber_transcribe E (tick w) audio_data in
  (of_service r, (b, advance (Some (Transcribe audio_data r)) w)).

Definition openai_create (api_messages : list ApiMessage) : M string := λ '(b, w),
  let r := chat_completions_create E (tick w) api_messages in
  (of_service r, (b, advance (Some (ChatCompletion api_messages r)) w)).

Definition elevenlabs_convert (text : string) : M (list bytes) := λ '(b, w),
  let r := text_to_speech_convert E (tick w) text in
  (of_service r, (b, advance (Some (TextToSpeech text r)) w)).

(** [with open(filename, "w") as f: json.dump(data, f)]: mode ["w"]
    replaces a file of the same name.  A refused write raises and leaves
    [files] as it was. *)
Definition json_dump (filename : string) (data : ConversationData) : M () := λ '(b, w),
  let ok := file_write E (tick w) filename in
  let w' := advance (Some (WriteFile filename data ok)) w in
  if ok
  then (Returned (),
        (b, {| tick := tick w';
               files := <[filename := data]> (files w');
               calls := calls w' |}))
  else (Raised service_error, (b, w')).

(** *** The methods of [VoiceAssistantBackend] *)

(** Lines 42-49. *)
Definition init (w : World) : Backend * World :=
  ({| conversation_history :=
        [{| role := system; content := SYSTEM_PROMPT;
            timestamp := None; type := None |}];
      session_id := now_strftime E (tick w) |},
   advance None w).

Definition transcribe_audio (audio_data : bytes) : M string :=
  try_except
    (text ← aai_transcribe audio_data;
     mret (match text with
           | Some t => if truthy_str t then t else ""
           | None => ""
           end))
    (λ _, mret "").

Definition get_llm_response (user_message : string) : M string :=
  try_except
    (now ← datetime_now;
     history_append {| role := user; content := user_message;
                       timestamp := Some now; type := None |};;
     history ← get_history;
     api_messages ← lift (context_window history);
     assistant_message ← openai_create api_messages;
     now ← datetime_now;
     history_append {| role := assistant; content := assistant_message;
                       timestamp := Some now; type := None |};;
     mret assistant_message)
    (λ _, mret llm_error_reply).

Definition synthesize_speech (text : string) : M bytes :=
  try_except
    (audio ← elevenlabs_convert text;
     mret (concat audio))
    (λ _, mret []).

Definition get_welcome_audio : M bytes :=
  now ← datetime_now;
  history_append {| role := assistant; content := WELCOME_MESSAGE;
                    timestamp := Some now; type := Some "welcome" |};;
  synthesize_speech WELCOME_MESSAGE.

(** [self.conversation_history[1]["timestamp"] if len(...) > 1 else None] *)
Definition start_time_of (history : list Message) : Outcome (option string) :=
  if decide (1 < length history) then
    match history !! 1 with
    | Some msg =>
        match timestamp msg with
        | Some t => Returned (Some t)
        | None => Raised "'timestamp'"
        end
    | None => Raised "list index out of range"
    end
  else Returned None.

Definition save_conversation : M string :=
  try_except
    (sid ← get_session_id;
     let filename := conversation_filename sid in
     history ← get_history;
     start ← lift (start_time_of history);
     now ← datetime_now;
     json_dump filename
       {| data_session_id := sid; start_time := start; end_time := now;
          messages := saved_messages history |};;
     mret filename)
    (λ _, mret "").

Definition process_user_audio (audio_data : bytes) : M (string * bytes) :=
  user_text ← transcribe_audio audio_data;
  if negb (truthy_str user_text) then mret ("", [])
  else
    assistant_text ← get_llm_response user_text;
    assistant_audio ← synthesize_speech assistant_text;
    mret (assistant_text, assistant_audio).

End backend.

(** ** app.py *)

(** What [receive_json] hands to the loop, by [data.get("type")]:
    [user_audio] with [data['audio']] when that key is present, and
    [other_type] for any other or missing type. *)
Inductive Inbound :=
| user_audio (audio : option string)
| end_conversation
| other_type.

(** What [send_json] is given.  [is_welcome] tells whether the key
    ["is_welcome"] is there; the code only ever sets it to [True]. *)
Inductive Outbound :=
| connected (sid : string)
| assistant_response (text : string) (audio : string) (is_welcome : bool)
| error (message : string)
| conversation_saved (filename : string).

Global Instance Outbound_eq_dec : EqDecision Outbound.
Proof. solve_decision. Defined.

(** Line 59, the text of the welcome event. *)
Definition welcome_text : string := "Hello! How may I help you today?".

(** The module-level dict [sessions], keyed by [id(websocket)], and the
    world.  The local variable [backend] of a handler and
    [sessions[session_id]] are one object, kept once, in the registry; a
    handler is live as long as its key is registered. *)
Record Server := {
  sessions : gmap N Backend;
  world : World;
}.

Section app.

Context (E : Env).

(** Line 75: [base64.b64decode(data['audio'])]. *)
Definition decode_audio (audio : option string) : Outcome bytes :=
  match audio with
  | None => Raised "'audio'"
  | Some a =>
      match b64decode E a with
      | inl audio_data => Returned audio_data
      | inr e => Raised e
      end
  end.

(** Lines 70-108, one iteration of the loop after [receive_json]
    returned.  Sending is taken to succeed. *)
Definition on_message (data : Inbound) : M (list Outbound) :=
  match data with
  | user_audio audio =>
      try_except
        (audio_data ← lift (decode_audio audio);
         '(text_response, audio_response) ← process_user_audio E audio_data;
         if truthy_str text_response && truthy audio_response
         then mret [assistant_response text_response
                      (b64encode E audio_response) false]
         else mret [error "Failed to process audio"])
        (λ e, mret [error e])
  | end_conversation =>
      filename ← save_conversation E;
      mret [conversation_saved filename]
  | other_type => mret []
  end.

(** Lines 53-64. *)
Definition send_greeting : M (list Outbound) :=
  try_except
    (welcome_audio ← get_welcome_audio E;
     mret [assistant_response welcome_text (b64encode E welcome_audio) true])
    (λ _, mret []).

(** Lines 117-120: [except Exception]. *)
Definition on_exception (sid : N) (srv : Server) : Server :=
  {| sessions := delete sid (sessions srv); world := world srv |}.

(** Lines 110-115: [except WebSocketDisconnect].  An exception raised by
    the handler itself would leave the entry in place. *)
Definition on_disconnect (sid : N) (srv : Server) : Server :=
  match sessions srv !! sid with
  | Some backend =>
      let '(r, (backend', w')) := save_conversation E (backend, world srv) in
      match r with
      | Returned _ =>
          {| sessions := delete sid (<[sid := backend']> (sessions srv));
             world := w' |}
      | Raised _ =>
          {| sessions := <[sid := backend']> (sessions srv); world := w' |}
      end
  | None => srv
  end.

(** Lines 38-50. *)
Definition on_connect (sid : N) (srv : Server) : Server * list Outbound :=
  let '(backend, w) := init E (world srv) in
  ({| sessions := <[sid := backend]> (sessions srv); world := w |},
   [connected (pretty sid)]).

(** A piece of the handler of connection [sid] that runs on its backend.
    An exception that escapes it reaches [except Exception]. *)
Definition in_session (sid : N) (m : M (list Outbound)) (srv : Server)
    : Server * list Outbound :=
  match sessions srv !! sid with
  | Some backend =>
      let '(r, (backend', w')) := m (backend, world srv) in
      let srv' := {| sessions := <[sid := backend']> (sessions srv);
                     world := w' |} in
      match r with
      | Returned out => (srv', out)
      | Raised _ => (on_exception sid srv', [])
      end
  | None => (srv, [])
  end.

(** The steps of the server.  Handlers of distinct connections interleave
    at their [await]s, so a run of the server is a sequence of steps of any
    connections. *)
Inductive Op :=
| Connect (sid : N)
| Greet (sid : N)
| Receive (sid : N) (data : Inbound)
| Disconnect (sid : N)
| Failure (sid : N).

Definition step (op : Op) (srv : Server) : Server * list Outbound :=
  match op with
  | Connect sid => on_connect sid srv
  | Greet sid => in_session sid send_greeting srv
  | Receive sid data => in_session sid (on_message data) srv
  | Disconnect sid => (on_disconnect sid srv, [])
  | Failure sid => (on_exception sid srv, [])
  end.

Fixpoint run (ops : list Op) (srv : Server) : Server * list Outbound :=
  match ops with
  | [] => (srv, [])
  | op :: ops =>
      let '(srv', out) := step op srv in
      let '(srv'', out') := run ops srv' in
      (srv'', out ++ out')
  end.

End app.

(** The process at start: no session, nothing written, no call made. *)
Definition boot : Server :=
  {| sessions := ∅; world := {| tick := 0; files := ∅; calls := [] |} |}.

(** ** backend.py, lines 24-34: the API keys *)

(** [os.getenv] of the three keys. *)
Record Keys := {
  ASSEMBLYAI_API_KEY : option string;
  OPENAI_API_KEY : option string;
  ELEVENLABS_API_KEY : option string;
}.

(** [not key], for a key that is [None] or a string. *)
Definition key_missing (key : option string) : bool :=
  match key with
  | Some s => negb (truthy_str s)
  | None => true
  end.

Section keys.

Context (E : Env).

(** [VoiceAssistantBackend()], lines 22-49: the keys are checked in this
    order before the clock is read; [init] is the rest. *)
Definition VoiceAssistantBackend (keys : Keys) (w : World)
    : Outcome Backend * World :=
  if key_missing (ASSEMBLYAI_API_KEY keys) then
    (Raised "ASSEMBLYAI_API_KEY not found in environment variables", w)
  else if key_missing (OPENAI_API_KEY keys) then
    (Raised "OPENAI_API_KEY not found in environment variables", w)
  else if key_missing (ELEVENLABS_API_KEY keys) then
    (Raised "ELEVENLABS_API_KEY not found in environment variables", w)
  else
    let '(backend, w') := init E w in (Returned backend, w').

(** app.py, lines 38-50, with the constructor: it is called outside of
    any [try], so its exception leaves the endpoint before the session is
    registered and before anything is sent. *)
Definition websocket_accept (keys : Keys) (sid : N) (srv : Server)
    : Server * list Outbound :=
  match VoiceAssistantBackend keys (world srv) with
  | (Returned backend, w) =>
      ({| sessions := <[sid := backend]> (sessions srv); world := w |},
       [connected (pretty sid)])
  | (Raised _, w) => ({| sessions := sessions srv; world := w |}, [])
  end.

End keys.

(** ** backend.py, lines 55-73: the temporary file of [transcribe_audio] *)

(** Line 57. *)
Definition temp_audio_filename (sid : string) : string :=
  "temp_audio_" +:+ sid +:+ ".wav".

(** What the file system and the transcriber do during one call:
    - [write_raises]: [None] when lines 58-59 write the file; [Some held]
      when [open] or [f.write] raises, [held] being what the file holds
      then ([None]: there is no such file);
    - [transcript]: [None] when line 63 raises, otherwise
      [transcript.text];
    - [remove_raises]: whether [os.remove] raises. *)
Record TranscribeRun := {
  write_raises : option (option bytes);
  transcript : option (option string);
  remove_raises : bool;
}.

(** Lines 58-59. *)
Definition write_temp (run : TranscribeRun) (temp_file : string)
    (audio_data : bytes) (disk : gmap string bytes)
    : Outcome () * gmap string bytes :=
  match write_raises run with
  | None => (Returned (), <[temp_file := audio_data]> disk)
  | Some (Some held) => (Raised service_error, <[temp_file := held]> disk)
  | Some None => (Raised service_error, delete temp_file disk)
  end.

(** Lines 66-67. *)
Definition remove_temp (run : TranscribeRun) (temp_file : string)
    (disk : gmap string bytes) : Outcome () * gmap string bytes :=
  if bool_decide (is_Some (disk !! temp_file)) then
    if remove_raises run then (Raised service_error, disk)
    else (Returned (), delete temp_file disk)
  else (Returned (), disk).

(** Lines 55-73 on the files of the working directory: the text returned
    and the files afterwards. *)
Definition transcribe_audio_files (sid : string) (audio_data : bytes)
    (run : TranscribeRun) (disk : gmap string bytes)
    : string * gmap string bytes :=
  let temp_file := temp_audio_filename sid in
  match write_temp run temp_file audio_data disk with
  | (Raised _, disk1) => ("", disk1)
  | (Returned _, disk1) =>
      match transcript run with
      | None => ("", disk1)
      | Some text =>
          match remove_temp run temp_file disk1 with
          | (Raised _, disk2) => ("", disk2)
          | (Returned _, disk2) =>
              (match text with
               | Some t => if truthy_str t then t else ""
               | None => ""
               end, disk2)
          end
      end
  end.

(** The answer of the transcriber as [Env] has it: [None] when anything
    in the [try] block raised. *)
Definition try_block_outcome (run : TranscribeRun) : option (option string) :=
  match write_raises run, transcript run, remove_raises run with
  | None, Some text, false => Some text
  | _, _, _ => None
  end.

(** * Vocabulary of the statements *)

(** ** The entries the code builds *)

Definition system_entry : Message :=
  {| role := system; content := SYSTEM_PROMPT;
     timestamp := None; type := None |}.

Definition user_entry (text now : string) : Message :=
  {| role := user; content := text; timestamp := Some now; type := None |}.

Definition assistant_entry (text now : string) : Message :=
  {| role := assistant; content := text; timestamp := Some now; type := None |}.

Definition welcome_entry (now : string) : Message :=
  {| role := assistant; content := WELCOME_MESSAGE;
     timestamp := Some now; type := Some "welcome" |}.

(** A backend with the same identity and another log. *)
Definition with_history (b : Backend) (h : list Message) : Backend :=
  {| conversation_history := h; session_id := session_id b |}.

(** What [transcribe_audio] makes of the answer of the service. *)
Definition transcript_of (r : option (option string)) : string :=
  match r with
  | Some (Some t) => t
  | _ => ""
  end.

(** What [synthesize_speech] makes of the answer of the service. *)
Definition audio_of (r : option (list bytes)) : bytes :=
  match r with
  | Some chunks => concat chunks
  | None => []
  end.

(** The window as a total function, see [context_window_returns]. *)
Definition window (history : list Message) : list ApiMessage :=
  match context_window history with
  | Returned api_messages => api_messages
  | Raised _ => []
  end.

(** ** Invariants of the log and of what is written *)

(** The log starts with the system prompt and holds no other system
    entry; every later entry carries a timestamp. *)
Definition log_ok (history : list Message) : Prop :=
  ∃ rest, history = system_entry :: rest
          ∧ Forall (λ msg, role msg ≠ system ∧ is_Some (timestamp msg)) rest.

(** A record without system entry. *)
Definition record_ok (data : ConversationData) : Prop :=
  Forall (λ msg, role msg ≠ system) (messages data).

Definition world_ok (w : World) : Prop :=
  (∀ f data, files w !! f = Some data → record_ok data)
  ∧ (∀ f data ok, WriteFile f data ok ∈ calls w → record_ok data).

(** A property of the backend that appending an entry of role [user] or
    [assistant] with a timestamp keeps. *)
Definition appendable (P : Backend → Prop) : Prop :=
  ∀ b msg, role msg ≠ system → is_Some (timestamp msg) → P b →
           P (with_history b (conversation_history b ++ [msg])).

(** [P] of the backend, and a world in which every record is sound. *)
Definition inv (P : Backend → Prop) : State → Prop :=
  λ s, P s.1 ∧ world_ok s.2.

Definition has_log_ok (b : Backend) : Prop := log_ok (conversation_history b).

(** The log of the backend starts with [h0]. *)
Definition extends (h0 : list Message) (b : Backend) : Prop :=
  h0 `prefix_of` conversation_history b.

Definition state_ok : State → Prop := inv has_log_ok.

Definition server_ok (srv : Server) : Prop :=
  (∀ sid b, sessions srv !! sid = Some b → log_ok (conversation_history b))
  ∧ world_ok (world srv).

(** [m] keeps [I], whether it returns or raises. *)
Definition stable {A} (I : State → Prop) (m : M A) : Prop :=
  ∀ s r s', I s → m s = (r, s') → I s'.

(** The backend of a state is [b0]. *)
Definition backend_is (b0 : Backend) : State → Prop := λ s, s.1 = b0.

(** [m] returns, and leaves the backend as it is. *)
Definition reads_only {A} (m : M A) : Prop :=
  ∀ b w, ∃ a w', m (b, w) = (Returned a, (b, w')).

(** [m] returns from every state. *)
Definition returns {A} (m : M A) : Prop :=
  ∀ s, ∃ a s', m s = (Returned a, s').

(** ** Concrete environments *)

(** Services with fixed answers, a clock that shows the tick, and audio
    carried as the text of its bytes. *)
Definition scenario (stt : option (option string)) (llm : option string)
    (tts : option (list bytes)) (disk : bool) : Env :=
  {| now_isoformat := λ n, "T" +:+ pretty n;
     now_strftime := λ n, "S" +:+ pretty n;
     transcriber_transcribe := λ _ _, stt;
     chat_completions_create := λ _ _, llm;
     text_to_speech_convert := λ _ _, tts;
     file_write := λ _ _, disk;
     b64encode := String.string_of_list_byte;
     b64decode := λ s, inl (String.list_byte_of_string s) |}.

Definition all_up : Env :=
  scenario (Some (Some "What time is it?")) (Some "It is noon.")
    (Some [[Byte.x52]; [Byte.x49]]) true.

Definition llm_down : Env :=
  scenario (Some (Some "What time is it?")) None (Some [[Byte.x52]]) true.

Definition silence : Env :=
  scenario (Some (Some "")) (Some "It is noon.") (Some [[Byte.x52]]) true.

(** A session that was greeted, in [all_up] and in [llm_down]. *)
Definition greeted (E : Env) : Server := (run E [Connect 7; Greet 7] boot).1.

Definition greeted_backend : Backend :=
  {| conversation_history := [system_entry; welcome_entry "T1"];
     session_id := "S0" |}.

(** A clock that shows the same second at every reading, with services
    that answer. *)
Definition same_second : Env :=
  {| now_isoformat := λ n, "T" +:+ pretty n;
     now_strftime := λ _, "20240101_120000";
     transcriber_transcribe := λ _ _, Some (Some "What time is it?");
     chat_completions_create := λ _ _, Some "It is noon.";
     text_to_speech_convert := λ _ _, Some [[Byte.x52]];
     file_write := λ _ _, true;
     b64encode := String.string_of_list_byte;
     b64decode := λ s, inl (String.list_byte_of_string s) |}.

(** ** Frames of a step *)

(** A property of the backend together with a property of the world. *)
Definition both (P : Backend → Prop) (Q : World → Prop) : State → Prop :=
  λ s, P s.1 ∧ Q s.2.

(** The world [w] with the document [data] under [filename]. *)
Definition with_file (filename : string) (data : ConversationData) (w : World)
    : World :=
  {| tick := tick w; files := <[filename := data]> (files w); calls := calls w |}.

(** A property of the world that a tick, a recorded call and a written
    file keep. *)
Definition world_closed (Q : World → Prop) : Prop :=
  (∀ c w, Q w → Q (advance c w))
  ∧ (∀ filename data w, Q w → Q (with_file filename data w)).

(** [w] is [w0] some interactions later: the clock has not gone back, the
    calls of [w0] are the first calls of [w], and every file of [w0] is a
    file of [w]. *)
Definition world_le (w0 w : World) : Prop :=
  tick w0 ≤ tick w
  ∧ calls w0 `prefix_of` calls w
  ∧ dom (files w0) ⊆ dom (files w).


(** ** Shapes of a step *)

Global Instance Inbound_eq_dec : EqDecision Inbound.
Proof. solve_decision. Defined.

Global Instance Op_eq_dec : EqDecision Op.
Proof. solve_decision. Defined.

(** What one step of a handler appends to the log of its session:
    nothing, the welcome entry, a user entry, or a user entry and the
    assistant entry that answers it. *)
Inductive appended : list Message → Prop :=
| appended_nothing : appended []
| appended_welcome now : appended [welcome_entry now]
| appended_user t now : appended [user_entry t now]
| appended_turn t now reply now' :
    appended [user_entry t now; assistant_entry reply now'].

(** A request to the response generator that starts with the system
    prompt, ends with a user message and has at most 11 messages. *)
Definition request_ok (msgs : list ApiMessage) : Prop :=
  head msgs = Some (to_api system_entry)
  ∧ length msgs ≤ 11
  ∧ ∃ text, last msgs = Some {| api_role := user; api_content := text |}.

Definition requests_ok (recorded : list Call) : Prop :=
  ∀ msgs r, ChatCompletion msgs r ∈ recorded → request_ok msgs.

(** Every assistant entry but a welcome entry comes right after a user
    entry. *)
Definition answers_follow_questions (history : list Message) : Prop :=
  ∀ i msg,
    history !! S i = Some msg →
    role msg = assistant → type msg = None →
    ∃ t now, history !! i = Some (user_entry t now).

(** * Properties *)

(** ** Lists and slices *)

Lemma truthy_str_true s : truthy_str s = true ↔ s ≠ "".
Proof. destruct s; simpl; split; (done || congruence). Qed.

Lemma api_view_all history : api_view history = to_api <$> history.
Proof.
  unfold api_view. f_equal.
  induction history as [|msg history IH]; [done|].
  rewrite filter_cons_True, IH; [done|].
  destruct (role msg); set_solver.
Qed.

Lemma slice_last_cons {A} n (x : A) (l : list A) :
  0 < n → n ≤ length l →
  slice_last n (x :: l) = drop (length l - n) l.
Proof.
  intros Hn Hle. destruct n as [|n]; [lia|].
  unfold slice_last. simpl length.
  replace (S (length l) - S n) with (S (length l - S n)) by lia.
  done.
Qed.

Lemma keep_recent_cons n first (l : list ApiMessage) :
  0 < n → keep_recent n (first :: l) = Returned (first :: drop (length l - n) l).
Proof.
  intros Hn. unfold keep_recent.
  destruct (decide _) as [Hlong|Hshort]; simpl in *.
  - by rewrite <- (slice_last_cons n first l) by lia.
  - replace (length l - n) with 0 by lia. done.
Qed.

Lemma keep_recent_nil n : keep_recent n [] = Returned [].
Proof. unfold keep_recent. destruct (decide _); simpl in *; [lia|done]. Qed.

Lemma context_window_returns history :
  context_window history = Returned (window history).
Proof.
  unfold window, context_window.
  destruct (api_view history) as [|first l].
  - by rewrite keep_recent_nil.
  - rewrite keep_recent_cons; [done|]. unfold MAX_CONVERSATION_HISTORY. lia.
Qed.

Lemma window_cons msg (history : list Message) :
  window (msg :: history) =
  to_api msg :: (to_api <$> drop (length history - MAX_CONVERSATION_HISTORY) history).
Proof.
  unfold window, context_window. rewrite api_view_all, fmap_cons.
  rewrite keep_recent_cons by (unfold MAX_CONVERSATION_HISTORY; lia).
  by rewrite length_fmap, fmap_drop.
Qed.

(** ** The methods, run on a state *)

Section methods.

Context (E : Env).

Lemma transcribe_audio_run audio_data b w :
  let r := transcriber_transcribe E (tick w) audio_data in
  transcribe_audio E audio_data (b, w) =
  (Returned (transcript_of r), (b, advance (Some (Transcribe audio_data r)) w)).
Proof.
  unfold transcribe_audio, try_except, mbind, M_bind, aai_transcribe; simpl.
  destruct (transcriber_transcribe E (tick w) audio_data) as [[t|]|]; simpl; try done.
  by destruct t.
Qed.

Lemma synthesize_speech_run text b w :
  let r := text_to_speech_convert E (tick w) text in
  synthesize_speech E text (b, w) =
  (Returned (audio_of r), (b, advance (Some (TextToSpeech text r)) w)).
Proof.
  unfold synthesize_speech, try_except, mbind, M_bind, elevenlabs_convert; simpl.
  by destruct (text_to_speech_convert E (tick w) text).
Qed.

Lemma get_llm_response_run user_message b w :
  let h := conversation_history b
             ++ [user_entry user_message (now_isoformat E (tick w))] in
  let r := chat_completions_create E (S (tick w)) (window h) in
  let w' := advance (Some (ChatCompletion (window h) r)) (advance None w) in
  get_llm_response E user_message (b, w) =
  match r with
  | Some reply =>
      (Returned reply,
       (with_history b (h ++ [assistant_entry reply (now_isoformat E (tick w'))]),
        advance None w'))
  | None => (Returned llm_error_reply, (with_history b h, w'))
  end.
Proof.
  unfold get_llm_response, try_except, mbind, M_bind; simpl.
  unfold lift. rewrite context_window_returns. simpl.
  by destruct (chat_completions_create E _ _).
Qed.

Lemma get_welcome_audio_run b w :
  let h := conversation_history b ++ [welcome_entry (now_isoformat E (tick w))] in
  let r := text_to_speech_convert E (S (tick w)) WELCOME_MESSAGE in
  get_welcome_audio E (b, w) =
  (Returned (audio_of r),
   (with_history b h,
    advance (Some (TextToSpeech WELCOME_MESSAGE r)) (advance None w))).
Proof.
  unfold get_welcome_audio, mbind, M_bind; simpl.
  by rewrite synthesize_speech_run.
Qed.

End methods.

(** ** Rules for invariants *)

Section stable.

Context (I : State → Prop).

Lemma stable_ret {A} (a : A) : stable I (mret a).
Proof. intros s r s' HI [= <- <-]. done. Qed.

Lemma stable_lift {A} (r : Outcome A) : stable I (lift r).
Proof. intros s r' s' HI [= <- <-]. done. Qed.

Lemma stable_bind {A B} (m : M A) (f : A → M B) :
  stable I m → (∀ a, stable I (f a)) → stable I (m ≫= f).
Proof.
  intros Hm Hf s r s' HI. unfold mbind, M_bind.
  destruct (m s) as [[a|e] s1] eqn:Hms; intros Hrun.
  - eapply Hf; [|exact Hrun]. eapply Hm; eauto.
  - injection Hrun as <- <-. eapply Hm; eauto.
Qed.

Lemma stable_try {A} (body : M A) handler :
  stable I body → (∀ e, stable I (handler e)) → stable I (try_except body handler).
Proof.
  intros Hm Hh s r s' HI. unfold try_except.
  destruct (body s) as [[a|e] s1] eqn:Hms; intros Hrun.
  - injection Hrun as <- <-. eapply Hm; eauto.
  - eapply Hh; [|exact Hrun]. eapply Hm; eauto.
Qed.

End stable.

Lemma log_ok_app history msg :
  log_ok history → role msg ≠ system → is_Some (timestamp msg) →
  log_ok (history ++ [msg]).
Proof.
  intros (rest & -> & Hrest) Hrole Hts. exists (rest ++ [msg]). split; [done|].
  apply Forall_app. split; [done|]. by apply Forall_singleton.
Qed.

Lemma record_ok_saved sid start now (history : list Message) :
  record_ok {| data_session_id := sid; start_time := start; end_time := now;
               messages := saved_messages history |}.
Proof.
  unfold record_ok, saved_messages; simpl.
  apply Forall_forall. intros msg Hin. by apply list_elem_of_filter in Hin as [? _].
Qed.

Lemma world_ok_advance c w :
  world_ok w →
  match c with Some (WriteFile _ data _) => record_ok data | _ => True end →
  world_ok (advance c w).
Proof.
  intros [Hfiles Hcalls] Hc. split; [exact Hfiles|].
  intros f data ok. destruct c as [c|]; simpl; [|by apply Hcalls].
  rewrite elem_of_app, list_elem_of_singleton.
  intros [Hin| <-]; [by eapply Hcalls|done].
Qed.

Lemma has_log_ok_appendable : appendable has_log_ok.
Proof. intros b msg Hrole Hts Hb. by apply log_ok_app. Qed.

Lemma extends_appendable h0 : appendable (extends h0).
Proof.
  intros b msg _ _ Hb. unfold extends in *. simpl. by apply prefix_app_r.
Qed.

Section methods_ok.

Context (E : Env) (P : Backend → Prop).

Lemma datetime_now_ok : stable (inv P) (datetime_now E).
Proof.
  intros [b w] r s' [Hb Hw] [= <- <-]. split; [done|].
  by apply world_ok_advance.
Qed.

Lemma history_append_ok msg :
  appendable P → role msg ≠ system → is_Some (timestamp msg) →
  stable (inv P) (history_append msg).
Proof.
  intros HP Hrole Hts [b w] r s' [Hb Hw] [= <- <-]. split; [|done].
  by apply HP.
Qed.

Lemma get_history_ok : stable (inv P) get_history.
Proof. by intros [b w] r s' HI [= <- <-]. Qed.

Lemma get_session_id_ok : stable (inv P) get_session_id.
Proof. by intros [b w] r s' HI [= <- <-]. Qed.

Lemma aai_transcribe_ok audio_data : stable (inv P) (aai_transcribe E audio_data).
Proof.
  intros [b w] r s' [Hb Hw] [= <- <-]. split; [done|].
  by apply world_ok_advance.
Qed.

Lemma openai_create_ok api_messages : stable (inv P) (openai_create E api_messages).
Proof.
  intros [b w] r s' [Hb Hw] [= <- <-]. split; [done|].
  by apply world_ok_advance.
Qed.

Lemma elevenlabs_convert_ok text : stable (inv P) (elevenlabs_convert E text).
Proof.
  intros [b w] r s' [Hb Hw] [= <- <-]. split; [done|].
  by apply world_ok_advance.
Qed.

Lemma json_dump_ok filename data :
  record_ok data → stable (inv P) (json_dump E filename data).
Proof.
  intros Hdata [b w] r s' [Hb Hw] Hrun. unfold json_dump in Hrun.
  pose proof (world_ok_advance (Some (WriteFile filename data
    (file_write E (tick w) filename))) w Hw Hdata) as [Hfiles Hcalls].
  destruct (file_write E (tick w) filename); injection Hrun as <- <-.
  - split; [done|]. split; [|exact Hcalls]. simpl.
    intros f d. destruct (decide (filename = f)) as [->|Hne].
    + rewrite lookup_insert_eq. by intros [= <-].
    + rewrite lookup_insert_ne by done. apply Hw.
  - by split.
Qed.

End methods_ok.

(** ** Every method keeps the invariants and returns *)

Lemma returns_ret {A} (a : A) : returns (mret a).
Proof. intros s. by eexists _, _. Qed.

Lemma returns_bind {A B} (m : M A) (f : A → M B) :
  returns m → (∀ a, returns (f a)) → returns (m ≫= f).
Proof.
  intros Hm Hf s. destruct (Hm s) as (a & s1 & Hms).
  destruct (Hf a s1) as (c & s2 & Hfs). exists c, s2.
  unfold mbind, M_bind. by rewrite Hms.
Qed.

Lemma returns_try {A} (body : M A) handler :
  (∀ e, returns (handler e)) → returns (try_except body handler).
Proof.
  intros Hh s. unfold try_except.
  destruct (body s) as [[a|e] s1]; [by eexists _, _|apply Hh].
Qed.

Section keeps_backend.

Context (E : Env) (b0 : Backend).

Local Abbreviation same := (backend_is b0).

Lemma datetime_now_same : stable same (datetime_now E).
Proof. by intros [b w] r s' HI [= <- <-]. Qed.

Lemma get_history_same : stable same get_history.
Proof. by intros [b w] r s' HI [= <- <-]. Qed.

Lemma get_session_id_same : stable same get_session_id.
Proof. by intros [b w] r s' HI [= <- <-]. Qed.

Lemma json_dump_same filename data : stable same (json_dump E filename data).
Proof.
  intros [b w] r s' HI. unfold json_dump.
  by destruct (file_write E (tick w) filename); intros [= <- <-].
Qed.

Lemma save_conversation_same : stable same (save_conversation E).
Proof.
  apply stable_try; [|intros; apply stable_ret].
  apply stable_bind; [apply get_session_id_same|intros sid].
  apply stable_bind; [apply get_history_same|intros history].
  apply stable_bind; [apply stable_lift|intros start].
  apply stable_bind; [apply datetime_now_same|intros now].
  apply stable_bind; [apply json_dump_same|intros; apply stable_ret].
Qed.

End keeps_backend.

Section public_methods.

Context (E : Env).

Section keeps.

Context (P : Backend → Prop) (HP : appendable P).

Ltac stable_tac :=
  repeat first
    [ apply stable_ret | apply stable_lift
    | apply stable_bind | apply stable_try
    | apply datetime_now_ok | apply get_history_ok | apply get_session_id_ok
    | apply aai_transcribe_ok | apply openai_create_ok
    | apply elevenlabs_convert_ok
    | apply history_append_ok; [exact HP | done | by eexists]
    | apply json_dump_ok; apply record_ok_saved
    | intro ].

Lemma transcribe_audio_ok audio_data : stable (inv P) (transcribe_audio E audio_data).
Proof. unfold transcribe_audio. stable_tac. Qed.

Lemma get_llm_response_ok user_message :
  stable (inv P) (get_llm_response E user_message).
Proof. unfold get_llm_response. stable_tac. Qed.

Lemma synthesize_speech_ok text : stable (inv P) (synthesize_speech E text).
Proof. unfold synthesize_speech. stable_tac. Qed.

Lemma get_welcome_audio_ok : stable (inv P) (get_welcome_audio E).
Proof. unfold get_welcome_audio. stable_tac. Qed.

Lemma save_conversation_ok : stable (inv P) (save_conversation E).
Proof. unfold save_conversation. stable_tac. Qed.

Lemma process_user_audio_ok audio_data :
  stable (inv P) (process_user_audio E audio_data).
Proof.
  unfold process_user_audio.
  apply stable_bind; [apply transcribe_audio_ok|intros user_text].
  destruct (negb _); [apply stable_ret|].
  apply stable_bind; [apply get_llm_response_ok|intros assistant_text].
  apply stable_bind; [apply synthesize_speech_ok|intros; apply stable_ret].
Qed.

Lemma on_message_ok data : stable (inv P) (on_message E data).
Proof.
  destruct data as [audio| |]; simpl.
  - apply stable_try; [|intros; apply stable_ret].
    apply stable_bind; [apply stable_lift|intros audio_data].
    apply stable_bind; [apply process_user_audio_ok|intros [text audio']].
    destruct (_ && _); apply stable_ret.
  - apply stable_bind; [apply save_conversation_ok|intros; apply stable_ret].
  - apply stable_ret.
Qed.

Lemma send_greeting_ok : stable (inv P) (send_greeting E).
Proof.
  apply stable_try; [|intros; apply stable_ret].
  apply stable_bind; [apply get_welcome_audio_ok|intros; apply stable_ret].
Qed.

End keeps.

Lemma transcribe_audio_returns audio_data : returns (transcribe_audio E audio_data).
Proof. apply returns_try. intros; apply returns_ret. Qed.

Lemma get_llm_response_returns user_message :
  returns (get_llm_response E user_message).
Proof. apply returns_try. intros; apply returns_ret. Qed.

Lemma synthesize_speech_returns text : returns (synthesize_speech E text).
Proof. apply returns_try. intros; apply returns_ret. Qed.

Lemma save_conversation_returns : returns (save_conversation E).
Proof. apply returns_try. intros; apply returns_ret. Qed.

Lemma process_user_audio_returns audio_data :
  returns (process_user_audio E audio_data).
Proof.
  apply returns_bind; [apply transcribe_audio_returns|intros user_text].
  destruct (negb _); [apply returns_ret|].
  apply returns_bind; [apply get_llm_response_returns|intros assistant_text].
  apply returns_bind; [apply synthesize_speech_returns|intros; apply returns_ret].
Qed.

Lemma on_message_returns data : returns (on_message E data).
Proof.
  destruct data as [audio| |]; simpl.
  - apply returns_try. intros; apply returns_ret.
  - apply returns_bind; [apply save_conversation_returns|intros; apply returns_ret].
  - apply returns_ret.
Qed.


Lemma save_conversation_reads_only : reads_only (save_conversation E).
Proof.
  intros b w. destruct (save_conversation_returns (b, w)) as (fn & [b' w'] & Hrun).
  pose proof (save_conversation_same E b (b, w) _ _ eq_refl Hrun) as Hb.
  unfold backend_is in Hb. simpl in Hb. subst b'. by exists fn, w'.
Qed.

End public_methods.

(** ** The server keeps the invariants *)

Section server_ok.

Context (E : Env).

Lemma boot_ok : server_ok boot.
Proof.
  split; [|split]; simpl.
  - intros sid b. by rewrite lookup_empty.
  - intros f data. by rewrite lookup_empty.
  - intros f data ok Hin. by apply not_elem_of_nil in Hin.
Qed.

Lemma log_ok_init : log_ok [system_entry].
Proof. exists []. by split. Qed.

Lemma sessions_insert_ok (reg : gmap N Backend) sid b :
  (∀ sid' b', reg !! sid' = Some b' → log_ok (conversation_history b')) →
  log_ok (conversation_history b) →
  ∀ sid' b', <[sid := b]> reg !! sid' = Some b' →
             log_ok (conversation_history b').
Proof.
  intros Hreg Hb sid' b'. destruct (decide (sid = sid')) as [->|Hne].
  - rewrite lookup_insert_eq. by intros [= <-].
  - rewrite lookup_insert_ne by done. apply Hreg.
Qed.

Lemma sessions_delete_ok (reg : gmap N Backend) sid :
  (∀ sid' b', reg !! sid' = Some b' → log_ok (conversation_history b')) →
  ∀ sid' b', delete sid reg !! sid' = Some b' →
             log_ok (conversation_history b').
Proof.
  intros Hreg sid' b'. destruct (decide (sid = sid')) as [->|Hne].
  - by rewrite lookup_delete_eq.
  - rewrite lookup_delete_ne by done. apply Hreg.
Qed.

Lemma on_connect_ok sid srv : server_ok srv → server_ok (on_connect E sid srv).1.
Proof.
  intros [Hreg Hw]. split; simpl.
  - apply sessions_insert_ok; [done|apply log_ok_init].
  - by apply world_ok_advance.
Qed.

Lemma on_exception_ok sid srv : server_ok srv → server_ok (on_exception sid srv).
Proof. intros [Hreg Hw]. split; simpl; [by apply sessions_delete_ok|done]. Qed.

Lemma in_session_ok sid m srv :
  stable state_ok m → server_ok srv → server_ok (in_session sid m srv).1.
Proof.
  intros Hm [Hreg Hw]. unfold in_session.
  destruct (sessions srv !! sid) as [b|] eqn:Hb; [|by split].
  destruct (m (b, world srv)) as [r [b' w']] eqn:Hrun.
  destruct (Hm (b, world srv) _ _ (conj (Hreg _ _ Hb) Hw) Hrun) as [Hlog' Hw'].
  assert (server_ok {| sessions := <[sid := b']> (sessions srv); world := w' |})
    as Hsrv' by (split; simpl; [by apply sessions_insert_ok|done]).
  destruct r; simpl; [done|by apply on_exception_ok].
Qed.

Lemma on_disconnect_ok sid srv : server_ok srv → server_ok (on_disconnect E sid srv).
Proof.
  intros [Hreg Hw]. unfold on_disconnect.
  destruct (sessions srv !! sid) as [b|] eqn:Hb; [|by split].
  destruct (save_conversation E (b, world srv)) as [r [b' w']] eqn:Hrun.
  destruct (save_conversation_ok E has_log_ok
              (b, world srv) _ _ (conj (Hreg _ _ Hb) Hw) Hrun)
    as [Hlog' Hw'].
  destruct r; split; simpl; try done.
  - apply sessions_delete_ok. by apply sessions_insert_ok.
  - by apply sessions_insert_ok.
Qed.

Lemma step_ok op srv : server_ok srv → server_ok (step E op srv).1.
Proof.
  intros Hsrv. destruct op; simpl.
  - by apply on_connect_ok.
  - apply in_session_ok; [|done].
    apply send_greeting_ok, has_log_ok_appendable.
  - apply in_session_ok; [|done].
    apply on_message_ok, has_log_ok_appendable.
  - by apply on_disconnect_ok.
  - by apply on_exception_ok.
Qed.

Lemma run_ok ops srv : server_ok srv → server_ok (run E ops srv).1.
Proof.
  revert srv. induction ops as [|op ops IH]; intros srv Hsrv; simpl; [done|].
  pose proof (step_ok op srv Hsrv) as Hstep.
  destruct (step E op srv) as [srv' out].
  specialize (IH srv' Hstep). by destruct (run E ops srv').
Qed.

Lemma on_disconnect_sessions sid srv :
  sessions (on_disconnect E sid srv) = delete sid (sessions srv).
Proof.
  unfold on_disconnect.
  destruct (sessions srv !! sid) as [b|] eqn:Hb.
  - destruct (save_conversation_reads_only E b (world srv)) as (fn & w' & Hrun).
    rewrite Hrun. simpl. apply delete_insert_eq.
  - symmetry. by apply delete_id.
Qed.

(** A piece of a handler only adds to the log of its session, and leaves
    the other sessions alone. *)
Lemma in_session_extends sid0 m srv sid b b' :
  (∀ h0, stable (inv (extends h0)) m) →
  world_ok (world srv) →
  sessions srv !! sid = Some b →
  sessions (in_session sid0 m srv).1 !! sid = Some b' →
  conversation_history b `prefix_of` conversation_history b'.
Proof.
  intros Hm Hw Hb. unfold in_session.
  destruct (sessions srv !! sid0) as [b0|] eqn:Hb0; simpl.
  2:{ rewrite Hb. by intros [= <-]. }
  destruct (m (b0, world srv)) as [r [b1 w1]] eqn:Hrun.
  destruct (decide (sid0 = sid)) as [->|Hne].
  - assert (b0 = b) as -> by congruence.
    destruct (Hm (conversation_history b) (b, world srv) _ _
                (conj (reflexivity _) Hw) Hrun) as [Hext _].
    destruct r; simpl.
    + rewrite lookup_insert_eq. by intros [= <-].
    + by rewrite lookup_delete_eq.
  - destruct r; simpl.
    + rewrite lookup_insert_ne, Hb by done. by intros [= <-].
    + rewrite lookup_delete_ne, lookup_insert_ne, Hb by done. by intros [= <-].
Qed.

Lemma step_extends op srv sid b b' :
  world_ok (world srv) →
  op ≠ Connect sid →
  sessions srv !! sid = Some b →
  sessions (step E op srv).1 !! sid = Some b' →
  conversation_history b `prefix_of` conversation_history b'.
Proof.
  intros Hw Hop Hb. destruct op as [sid0|sid0|sid0 data|sid0|sid0]; simpl.
  - rewrite lookup_insert_ne, Hb by congruence. by intros [= <-].
  - apply in_session_extends; [|done..].
    intros h0. apply send_greeting_ok, extends_appendable.
  - apply in_session_extends; [|done..].
    intros h0. apply on_message_ok, extends_appendable.
  - rewrite on_disconnect_sessions.
    destruct (decide (sid0 = sid)) as [->|Hne].
    + by rewrite lookup_delete_eq.
    + rewrite lookup_delete_ne, Hb by done. by intros [= <-].
  - destruct (decide (sid0 = sid)) as [->|Hne].
    + by rewrite lookup_delete_eq.
    + rewrite lookup_delete_ne, Hb by done. by intros [= <-].
Qed.

End server_ok.

(** ** A user turn, run on a state *)

Section turn.

Context (E : Env).

Lemma process_user_audio_run audio_data b w :
  process_user_audio E audio_data (b, w) =
  let r := transcriber_transcribe E (tick w) audio_data in
  let w1 := advance (Some (Transcribe audio_data r)) w in
  if truthy_str (transcript_of r) then
    match get_llm_response E (transcript_of r) (b, w1) with
    | (Returned text, (b2, w2)) =>
        let speech := text_to_speech_convert E (tick w2) text in
        (Returned (text, audio_of speech),
         (b2, advance (Some (TextToSpeech text speech)) w2))
    | (Raised e, s) => (Raised e, s)
    end
  else (Returned ("", []), (b, w1)).
Proof.
  unfold process_user_audio, mbind, M_bind.
  rewrite transcribe_audio_run. simpl.
  destruct (truthy_str _); simpl; [|done].
  destruct (get_llm_response E _ _) as [[text|e] [b2 w2]]; [|done].
  by rewrite synthesize_speech_run.
Qed.

Lemma on_user_audio_run a audio_data b w :
  b64decode E a = inl audio_data →
  on_message E (user_audio (Some a)) (b, w) =
  match process_user_audio E audio_data (b, w) with
  | (Returned (text, audio), s) =>
      (Returned
         (if truthy_str text && truthy audio
          then [assistant_response text (b64encode E audio) false]
          else [error "Failed to process audio"]), s)
  | (Raised e, s) => (Returned [error e], s)
  end.
Proof.
  intros Ha. simpl. unfold try_except, mbind, M_bind, lift, decode_audio.
  rewrite Ha.
  destruct (process_user_audio E audio_data (b, w)) as [[[text audio]|e] s]; [|done].
  by destruct (_ && _).
Qed.

Lemma in_session_run sid m srv b out b' w' :
  sessions srv !! sid = Some b →
  m (b, world srv) = (Returned out, (b', w')) →
  in_session sid m srv =
  ({| sessions := <[sid := b']> (sessions srv); world := w' |}, out).
Proof. intros Hb Hrun. unfold in_session. by rewrite Hb, Hrun. Qed.

Lemma receive_run sid data srv b out b' w' :
  sessions srv !! sid = Some b →
  on_message E data (b, world srv) = (Returned out, (b', w')) →
  step E (Receive sid data) srv =
  ({| sessions := <[sid := b']> (sessions srv); world := w' |}, out).
Proof. apply in_session_run. Qed.

End turn.

(** ** The claims *)

(** C4.  When the log, at the time the window is built, is a system
    message followed by N other messages, the messages sent to the
    response generator are the system message followed by the last
    [MAX_CONVERSATION_HISTORY] of the others in their order, so
    min(cap, N) + 1 messages; the call is made with exactly these, and the
    log is still there, entry by entry, when [get_llm_response] returns. *)
Theorem bounded_context_window E (b : Backend) (w : World) user_message sys rest :
  conversation_history b
    ++ [user_entry user_message (now_isoformat E (tick w))] = sys :: rest →
  role sys = system →
  Forall (λ msg, role msg ≠ system) rest →
  let cap := MAX_CONVERSATION_HISTORY in
  let win := to_api sys :: (to_api <$> drop (length rest - cap) rest) in
  context_window (sys :: rest) = Returned win
  ∧ length win = min cap (length rest) + 1
  ∧ ∃ reply b' w',
      get_llm_response E user_message (b, w) = (Returned reply, (b', w'))
      ∧ calls w' = calls w
          ++ [ChatCompletion win (chat_completions_create E (S (tick w)) win)]
      ∧ sys :: rest `prefix_of` conversation_history b'.
Proof.
  intros Hlog Hsys Hrest cap win.
  assert (window (sys :: rest) = win) as Hwin by apply window_cons.
  split; [by rewrite context_window_returns, Hwin|].
  split.
  { unfold win, cap, MAX_CONVERSATION_HISTORY.
    rewrite length_cons, length_fmap, length_drop. lia. }
  pose proof (get_llm_response_run E user_message b w) as Hrun.
  simpl in Hrun. rewrite Hlog, Hwin in Hrun.
  destruct (chat_completions_create E (S (tick w)) win) as [reply|];
    eexists _, _, _; (split; [exact Hrun|]); (split; [done|]).
  - by eexists.
  - exists []. simpl. by rewrite app_nil_r.
Qed.

Lemma bounded_context_window_witness :
  context_window (conversation_history greeted_backend
                    ++ [user_entry "What time is it?" "T2"])
  = Returned [to_api system_entry; to_api (welcome_entry "T1");
              to_api (user_entry "What time is it?" "T2")].
Proof.
  refine (proj1 (bounded_context_window all_up greeted_backend
    {| tick := 2; files := ∅; calls := [] |} "What time is it?"
    system_entry [welcome_entry "T1"; user_entry "What time is it?" "T2"]
    _ _ _)).
  - reflexivity.
  - reflexivity.
  - repeat constructor; discriminate.
Defined.

(** C3.  When the transcript is not empty and the call of the response
    generator raises, [process_user_audio] returns the fixed apology as the
    assistant text, which is not empty, together with the audio synthesized
    from it: after the failed call the next call is the synthesis of that
    very text. *)
Theorem generator_failure_masked E audio_data (b : Backend) (w : World) t :
  transcriber_transcribe E (tick w) audio_data = Some (Some t) →
  t ≠ "" →
  let h := conversation_history b
             ++ [user_entry t (now_isoformat E (S (tick w)))] in
  chat_completions_create E (S (S (tick w))) (window h) = None →
  let speech := text_to_speech_convert E (S (S (S (tick w)))) llm_error_reply in
  llm_error_reply ≠ ""
  ∧ ∃ b' w',
      process_user_audio E audio_data (b, w)
      = (Returned (llm_error_reply, audio_of speech), (b', w'))
      ∧ calls w' = calls w
          ++ [Transcribe audio_data (Some (Some t));
              ChatCompletion (window h) None;
              TextToSpeech llm_error_reply speech].
Proof.
  intros Hstt Ht h Hllm speech. split; [done|].
  rewrite process_user_audio_run. simpl. rewrite Hstt. simpl.
  apply truthy_str_true in Ht. rewrite Ht.
  pose proof (get_llm_response_run E t b
    (advance (Some (Transcribe audio_data (Some (Some t)))) w)) as Hrun.
  simpl in Hrun. fold h in Hrun. rewrite Hllm in Hrun. rewrite Hrun.
  eexists _, _. split; [done|]. simpl. by rewrite <- !app_assoc.
Qed.

Lemma generator_failure_masked_witness :
  ∃ b' w',
    process_user_audio llm_down [Byte.x7a] (greeted_backend, world (greeted llm_down))
    = (Returned (llm_error_reply, [Byte.x52]), (b', w')).
Proof.
  destruct (generator_failure_masked llm_down [Byte.x7a] greeted_backend
    (world (greeted llm_down)) "What time is it?"
    eq_refl ltac:(discriminate) eq_refl) as (_ & b' & w' & Hrun & _).
  by exists b', w'.
Defined.

(** C5.  When the audio of a [user_audio] event transcribes to nothing -
    the transcriber raises, or its text is missing or empty - the pipeline
    returns at once with empty text and audio: the transcription is the only
    call made, no log of the registry changes, and the client is sent one
    [error] event. *)
Theorem empty_transcription_short_circuits E (srv : Server) sid b a audio_data :
  sessions srv !! sid = Some b →
  b64decode E a = inl audio_data →
  let r := transcriber_transcribe E (tick (world srv)) audio_data in
  r = None ∨ r = Some None ∨ r = Some (Some "") →
  let after := step E (Receive sid (user_audio (Some a))) srv in
  (process_user_audio E audio_data (b, world srv)).1 = Returned ("", [])
  ∧ sessions after.1 = sessions srv
  ∧ calls (world after.1) = calls (world srv) ++ [Transcribe audio_data r]
  ∧ after.2 = [error "Failed to process audio"].
Proof.
  intros Hb Ha r Hr after.
  assert (truthy_str (transcript_of r) = false) as Hempty
    by (by destruct Hr as [->|[->| ->]]).
  assert (process_user_audio E audio_data (b, world srv)
          = (Returned ("", []),
             (b, advance (Some (Transcribe audio_data r)) (world srv)))) as Hrun.
  { rewrite process_user_audio_run. simpl. fold r. by rewrite Hempty. }
  split; [by rewrite Hrun|].
  unfold after.
  erewrite receive_run; [|done|by rewrite (on_user_audio_run E a audio_data), Hrun].
  simpl. split; [by apply insert_id|done].
Qed.

Lemma empty_transcription_short_circuits_witness :
  let after := step silence (Receive 7 (user_audio (Some "z"))) (greeted silence) in
  sessions after.1 = sessions (greeted silence)
  ∧ after.2 = [error "Failed to process audio"].
Proof.
  destruct (empty_transcription_short_circuits silence (greeted silence) 7
    {| conversation_history := [system_entry; welcome_entry "T1"];
       session_id := "S0" |} "z" [Byte.x7a]
    eq_refl eq_refl (or_intror (or_intror eq_refl))) as (_ & Hreg & _ & Hout).
  by split.
Defined.

(** A turn with a transcript that is not empty, by the answer of the
    response generator. *)
Lemma spoken_turn_run E audio_data (b : Backend) (w : World) t :
  transcriber_transcribe E (tick w) audio_data = Some (Some t) →
  t ≠ "" →
  let h := conversation_history b
             ++ [user_entry t (now_isoformat E (S (tick w)))] in
  let w1 := advance (Some (Transcribe audio_data (Some (Some t)))) w in
  let r := chat_completions_create E (S (S (tick w))) (window h) in
  let w2 := advance (Some (ChatCompletion (window h) r)) (advance None w1) in
  process_user_audio E audio_data (b, w) =
  match r with
  | Some reply =>
      let speech := text_to_speech_convert E (S (S (S (S (tick w))))) reply in
      (Returned (reply, audio_of speech),
       (with_history b
          (h ++ [assistant_entry reply (now_isoformat E (S (S (S (tick w)))))]),
        advance (Some (TextToSpeech reply speech)) (advance None w2)))
  | None =>
      let speech := text_to_speech_convert E (S (S (S (tick w)))) llm_error_reply in
      (Returned (llm_error_reply, audio_of speech),
       (with_history b h,
        advance (Some (TextToSpeech llm_error_reply speech)) w2))
  end.
Proof.
  intros Hstt Ht h w1 r w2.
  rewrite process_user_audio_run. simpl. rewrite Hstt. simpl.
  apply truthy_str_true in Ht. rewrite Ht.
  pose proof (get_llm_response_run E t b w1) as Hrun.
  simpl in Hrun. fold h r in Hrun. fold w1. rewrite Hrun.
  by destruct r.
Qed.

(** C1, as the code has it.  A [user_audio] event with a transcript that
    is not empty appends a user entry whose content is the transcript.  When
    the response generator answers, an assistant entry with the reply
    follows, two entries in all; when it raises, nothing follows: the
    apology is returned, and not logged. *)
Theorem user_turn_log E (srv : Server) sid b a audio_data t :
  sessions srv !! sid = Some b →
  b64decode E a = inl audio_data →
  transcriber_transcribe E (tick (world srv)) audio_data = Some (Some t) →
  t ≠ "" →
  let w := world srv in
  let h := conversation_history b
             ++ [user_entry t (now_isoformat E (S (tick w)))] in
  let after := step E (Receive sid (user_audio (Some a))) srv in
  sessions after.1 !! sid =
  match chat_completions_create E (S (S (tick w))) (window h) with
  | Some reply =>
      Some (with_history b
              (h ++ [assistant_entry reply (now_isoformat E (S (S (S (tick w)))))]))
  | None => Some (with_history b h)
  end.
Proof.
  intros Hb Ha Hstt Ht w h after.
  pose proof (spoken_turn_run E audio_data b w t Hstt Ht) as Hrun.
  simpl in Hrun. fold h in Hrun.
  pose proof (on_user_audio_run E a audio_data b w Ha) as Hmsg.
  rewrite Hrun in Hmsg. unfold after.
  destruct (chat_completions_create E (S (S (tick w))) (window h)) as [reply|];
    erewrite receive_run by (done || exact Hmsg); simpl;
    by rewrite lookup_insert_eq.
Qed.

Lemma user_turn_log_witness :
  sessions (step all_up (Receive 7 (user_audio (Some "z"))) (greeted all_up)).1 !! 7%N
  = Some (with_history greeted_backend
            [system_entry; welcome_entry "T1";
             user_entry "What time is it?" "T4";
             assistant_entry "It is noon." "T6"]).
Proof.
  exact (user_turn_log all_up (greeted all_up) 7 greeted_backend "z" [Byte.x7a]
           "What time is it?" eq_refl eq_refl eq_refl ltac:(discriminate)).
Defined.

(** C1 as stated fails: with the response generator down, the session
    that was greeted has one entry more after the event, the user entry. *)
Lemma fallback_reply_not_logged :
  transcriber_transcribe llm_down (tick (world (greeted llm_down))) [Byte.x7a]
  = Some (Some "What time is it?")
  ∧ sessions (greeted llm_down) !! 7%N = Some greeted_backend
  ∧ sessions (step llm_down (Receive 7 (user_audio (Some "z")))
                (greeted llm_down)).1 !! 7%N
    = Some (with_history greeted_backend
              (conversation_history greeted_backend
                 ++ [user_entry "What time is it?" "T4"]))
  ∧ ¬ ∃ b' u a,
        sessions (step llm_down (Receive 7 (user_audio (Some "z")))
                    (greeted llm_down)).1 !! 7%N = Some b'
        ∧ conversation_history b'
          = conversation_history greeted_backend ++ [u; a].
Proof.
  split; [reflexivity|]. split; [reflexivity|]. split; [reflexivity|].
  intros (b' & u & a & Hb' & Hlog).
  vm_compute in Hb'. injection Hb' as <-. discriminate Hlog.
Qed.

(** C2, as the code has it.  After a [user_audio] event the session is
    still registered, whatever failed.  An empty transcript, and a
    synthesis that yields no audio, are answered with the [error] event
    ["Failed to process audio"].  A failure of the response generator alone
    is not: its apology is synthesized and, when there is audio, sent as an
    [assistant_response]. *)
Theorem user_audio_outcome E (srv : Server) sid b a audio_data :
  sessions srv !! sid = Some b →
  b64decode E a = inl audio_data →
  let w := world srv in
  let t := transcript_of (transcriber_transcribe E (tick w) audio_data) in
  let h := conversation_history b
             ++ [user_entry t (now_isoformat E (S (tick w)))] in
  let r := chat_completions_create E (S (S (tick w))) (window h) in
  let after := step E (Receive sid (user_audio (Some a))) srv in
  is_Some (sessions after.1 !! sid)
  ∧ (t = "" → after.2 = [error "Failed to process audio"])
  ∧ (t ≠ "" → ∀ reply,
       r = Some reply →
       audio_of (text_to_speech_convert E (S (S (S (S (tick w))))) reply) = [] →
       after.2 = [error "Failed to process audio"])
  ∧ (t ≠ "" → r = None →
       let audio :=
         audio_of (text_to_speech_convert E (S (S (S (tick w)))) llm_error_reply) in
       after.2 = if truthy audio
                 then [assistant_response llm_error_reply (b64encode E audio) false]
                 else [error "Failed to process audio"]).
Proof.
  intros Hb Ha w t h r after.
  pose proof (on_user_audio_run E a audio_data b w Ha) as Hmsg.
  split.
  { destruct (on_message_returns E (user_audio (Some a)) (b, w))
      as (out & [b' w'] & Hout).
    unfold after. erewrite receive_run by done. simpl.
    by rewrite lookup_insert_eq. }
  split.
  { intros Hempty. rewrite process_user_audio_run in Hmsg. simpl in Hmsg.
    fold w t in Hmsg. rewrite Hempty in Hmsg. simpl in Hmsg.
    unfold after. by erewrite receive_run by done. }
  assert (t ≠ "" → transcriber_transcribe E (tick w) audio_data = Some (Some t))
    as Hstt.
  { unfold t. by destruct (transcriber_transcribe E (tick w) audio_data) as [[?|]|]. }
  split.
  - intros Ht reply Hr Haudio.
    pose proof (spoken_turn_run E audio_data b w t (Hstt Ht) Ht) as Hrun.
    simpl in Hrun. fold h r in Hrun. rewrite Hr in Hrun.
    rewrite Hrun, Haudio, andb_false_r in Hmsg.
    unfold after. by erewrite receive_run by done.
  - intros Ht Hr audio.
    pose proof (spoken_turn_run E audio_data b w t (Hstt Ht) Ht) as Hrun.
    simpl in Hrun. fold h r in Hrun. rewrite Hr in Hrun.
    rewrite Hrun in Hmsg. fold audio in Hmsg.
    unfold after. by erewrite receive_run by done.
Qed.

Lemma user_audio_outcome_witness :
  is_Some (sessions (step silence (Receive 7 (user_audio (Some "z")))
                       (greeted silence)).1 !! 7%N)
  ∧ (step silence (Receive 7 (user_audio (Some "z"))) (greeted silence)).2
    = [error "Failed to process audio"].
Proof.
  destruct (user_audio_outcome silence (greeted silence) 7 greeted_backend
              "z" [Byte.x7a] eq_refl eq_refl) as (Hopen & Hempty & _).
  split; [exact Hopen|exact (Hempty eq_refl)].
Defined.

(** C2 as stated fails: with the response generator down the client is
    sent an [assistant_response] with the apology, and no [error]. *)
Lemma generator_failure_not_reported :
  sessions (greeted llm_down) !! 7%N = Some greeted_backend
  ∧ chat_completions_create llm_down 5
      (window (conversation_history greeted_backend
                 ++ [user_entry "What time is it?" "T4"])) = None
  ∧ (step llm_down (Receive 7 (user_audio (Some "z"))) (greeted llm_down)).2
    = [assistant_response llm_error_reply "R" false]
  ∧ ¬ ∃ message,
        error message
        ∈ (step llm_down (Receive 7 (user_audio (Some "z"))) (greeted llm_down)).2.
Proof.
  split; [reflexivity|]. split; [reflexivity|].
  assert ((step llm_down (Receive 7 (user_audio (Some "z"))) (greeted llm_down)).2
          = [assistant_response llm_error_reply "R" false]) as -> by reflexivity.
  split; [reflexivity|].
  intros (message & Hin). apply list_elem_of_singleton in Hin. discriminate Hin.
Qed.

(** ** Export *)

Lemma saved_messages_log rest :
  Forall (λ msg, role msg ≠ system) rest →
  saved_messages (system_entry :: rest) = rest.
Proof.
  intros Hrest. unfold saved_messages.
  rewrite filter_cons_False by (simpl; by intros []).
  induction Hrest as [|msg rest Hmsg Hrest IH]; [done|].
  by rewrite filter_cons_True, IH.
Qed.

Lemma start_time_of_log rest :
  Forall (λ msg, is_Some (timestamp msg)) rest →
  start_time_of (system_entry :: rest) = Returned (head rest ≫= timestamp).
Proof.
  intros Hrest. unfold start_time_of.
  destruct Hrest as [|msg rest [t Ht] _]; case_decide; simpl in *; try lia.
  - done.
  - by rewrite Ht.
Qed.

Lemma log_ok_split history :
  log_ok history →
  ∃ rest, history = system_entry :: rest
          ∧ Forall (λ msg, role msg ≠ system) rest
          ∧ Forall (λ msg, is_Some (timestamp msg)) rest.
Proof.
  intros (rest & -> & Hrest). exists rest. split; [done|].
  apply Forall_and in Hrest. exact Hrest.
Qed.

Lemma save_conversation_run E (b : Backend) (w : World) rest :
  conversation_history b = system_entry :: rest →
  Forall (λ msg, role msg ≠ system) rest →
  Forall (λ msg, is_Some (timestamp msg)) rest →
  let filename := conversation_filename (session_id b) in
  let data := {| data_session_id := session_id b;
                 start_time := head rest ≫= timestamp;
                 end_time := now_isoformat E (tick w);
                 messages := rest |} in
  let ok := file_write E (S (tick w)) filename in
  save_conversation E (b, w) =
  (Returned (if ok then filename else ""),
   (b, {| tick := S (S (tick w));
          files := if ok then <[filename := data]> (files w) else files w;
          calls := calls w ++ [WriteFile filename data ok] |})).
Proof.
  intros Hlog Hrole Hts filename data ok.
  unfold save_conversation, try_except, mbind, M_bind, lift; simpl.
  rewrite Hlog, start_time_of_log, saved_messages_log by done. simpl.
  fold filename data ok. by destruct ok.
Qed.

(** C6.  The backend made on connection has the system prompt as its only
    entry.  In every state the server reaches, the log of every registered
    session starts with that entry and has no other of role [system], so
    exactly one; a further step of the server, other than a new connection
    under the same key, keeps every entry of the log of a session that
    stays registered; and no record written, or asked to be written, has an
    entry of role [system]. *)
Theorem system_prompt_invariant E ops :
  let srv := (run E ops boot).1 in
  (∀ sid b,
     sessions (step E (Connect sid) srv).1 !! sid = Some b →
     conversation_history b = [system_entry])
  ∧ (∀ sid b,
       sessions srv !! sid = Some b →
       ∃ rest,
         conversation_history b = system_entry :: rest
         ∧ Forall (λ msg, role msg ≠ system) rest
         ∧ length (filter (λ msg, role msg = system) (conversation_history b)) = 1)
  ∧ (∀ op sid b b',
       op ≠ Connect sid →
       sessions srv !! sid = Some b →
       sessions (step E op srv).1 !! sid = Some b' →
       conversation_history b `prefix_of` conversation_history b')
  ∧ (∀ f data,
       files (world srv) !! f = Some data →
       Forall (λ msg, role msg ≠ system) (messages data))
  ∧ (∀ f data ok,
       WriteFile f data ok ∈ calls (world srv) →
       Forall (λ msg, role msg ≠ system) (messages data)).
Proof.
  intros srv.
  destruct (run_ok E ops boot boot_ok) as [Hreg Hw]. fold srv in Hreg, Hw.
  split; [|split; [|split; [|exact Hw]]].
  - intros sid b. simpl. rewrite lookup_insert_eq. by intros [= <-].
  - intros sid b Hb.
    destruct (log_ok_split _ (Hreg sid b Hb)) as (rest & Hlog & Hrole & _).
    exists rest. split; [done|]. split; [done|].
    rewrite Hlog, filter_cons_True by done. simpl. f_equal.
    clear Hlog. induction Hrole as [|msg rest Hmsg Hrole IH]; [done|].
    by rewrite filter_cons_False.
  - intros op sid b b' Hop Hb. by apply step_extends.
Qed.

Lemma system_prompt_invariant_witness :
  ∃ rest,
    [system_entry; welcome_entry "T1"; user_entry "What time is it?" "T4";
     assistant_entry "It is noon." "T6"] = system_entry :: rest
    ∧ Forall (λ msg, role msg ≠ system) rest.
Proof.
  destruct (system_prompt_invariant all_up
    [Connect 7; Greet 7; Receive 7 (user_audio (Some "z"));
     Receive 7 end_conversation]) as (_ & Hlog & _).
  destruct (Hlog 7%N
    (with_history greeted_backend
       [system_entry; welcome_entry "T1"; user_entry "What time is it?" "T4";
        assistant_entry "It is noon." "T6"]) eq_refl) as (rest & Hrest & Hrole & _).
  exists rest. split; [exact Hrest|exact Hrole].
Defined.

(** C7.  For a session of a reachable state whose file can be written,
    [save_conversation] returns the file name and leaves under it a record
    with the identity of the session, the timestamp of the first entry
    after the system prompt as start time ([None] when there is no such
    entry), the time read at the export as end time, and every entry but
    the system prompt, whole and in the order of the log. *)
Theorem export_record E ops sid b :
  let srv := (run E ops boot).1 in
  let w := world srv in
  let filename := conversation_filename (session_id b) in
  sessions srv !! sid = Some b →
  file_write E (S (tick w)) filename = true →
  ∃ rest w',
    conversation_history b = system_entry :: rest
    ∧ Forall (λ msg, role msg ≠ system) rest
    ∧ save_conversation E (b, w) = (Returned filename, (b, w'))
    ∧ files w' !! filename
      = Some {| data_session_id := session_id b;
                start_time := head rest ≫= timestamp;
                end_time := now_isoformat E (tick w);
                messages := rest |}.
Proof.
  intros srv w filename Hb Hdisk.
  destruct (run_ok E ops boot boot_ok) as [Hreg _]. fold srv in Hreg.
  destruct (log_ok_split _ (Hreg sid b Hb)) as (rest & Hlog & Hrole & Hts).
  pose proof (save_conversation_run E b w rest Hlog Hrole Hts) as Hrun.
  simpl in Hrun. fold filename in Hrun. rewrite Hdisk in Hrun.
  exists rest. eexists. split; [done|]. split; [done|]. split; [exact Hrun|].
  simpl. by rewrite lookup_insert_eq.
Qed.

Lemma export_record_witness :
  ∃ w',
    save_conversation all_up (greeted_backend, world (greeted all_up))
    = (Returned "conversation_S0.json", (greeted_backend, w'))
    ∧ files w' !! "conversation_S0.json"
      = Some {| data_session_id := "S0";
                start_time := Some "T1";
                end_time := "T3";
                messages := [welcome_entry "T1"] |}.
Proof.
  destruct (export_record all_up [Connect 7; Greet 7] 7 greeted_backend
              eq_refl eq_refl) as (rest & w' & Hlog & _ & Hrun & Hfile).
  injection Hlog as <-. by exists w'.
Defined.

Lemma run_two E op1 op2 srv :
  run E [op1; op2] srv =
  ((step E op2 (step E op1 srv).1).1,
   (step E op1 srv).2 ++ (step E op2 (step E op1 srv).1).2).
Proof.
  unfold run. destruct (step E op1 srv) as [srv1 out1]. simpl.
  destruct (step E op2 srv1) as [srv2 out2]. simpl. by rewrite app_nil_r.
Qed.

(** C8.  Two [end_conversation] events in a row, for a session of a
    reachable state: each is answered with [conversation_saved], the
    registry and so every log is as before, and when the file can be
    written both answers carry the one name made from the identity of the
    session, under which the record of the second export is found. *)
Theorem end_conversation_twice E ops sid b :
  let srv := (run E ops boot).1 in
  let w := world srv in
  let filename := conversation_filename (session_id b) in
  let after := run E [Receive sid end_conversation; Receive sid end_conversation] srv in
  sessions srv !! sid = Some b →
  sessions after.1 = sessions srv
  ∧ (∃ f1 f2, after.2 = [conversation_saved f1; conversation_saved f2])
  ∧ (file_write E (S (tick w)) filename = true →
     file_write E (S (S (S (tick w)))) filename = true →
     after.2 = [conversation_saved filename; conversation_saved filename]
     ∧ ∃ rest,
         conversation_history b = system_entry :: rest
         ∧ files (world after.1) !! filename
           = Some {| data_session_id := session_id b;
                     start_time := head rest ≫= timestamp;
                     end_time := now_isoformat E (S (S (tick w)));
                     messages := rest |}).
Proof.
  intros srv w filename after Hb.
  destruct (run_ok E ops boot boot_ok) as [Hreg _]. fold srv in Hreg.
  destruct (log_ok_split _ (Hreg sid b Hb)) as (rest & Hlog & Hrole & Hts).
  pose proof (save_conversation_run E b w rest Hlog Hrole Hts) as Hrun1.
  simpl in Hrun1. fold filename in Hrun1.
  set (ok1 := file_write E (S (tick w)) filename) in *.
  set (data1 := {| data_session_id := session_id b;
                   start_time := head rest ≫= timestamp;
                   end_time := now_isoformat E (tick w);
                   messages := rest |}) in *.
  set (w1 := {| tick := S (S (tick w));
                files := if ok1 then <[filename := data1]> (files w) else files w;
                calls := calls w ++ [WriteFile filename data1 ok1] |}) in *.
  pose proof (save_conversation_run E b w1 rest Hlog Hrole Hts) as Hrun2.
  simpl in Hrun2. fold filename in Hrun2.
  set (ok2 := file_write E (S (S (S (tick w)))) filename) in *.
  assert (step E (Receive sid end_conversation) srv
          = ({| sessions := sessions srv; world := w1 |},
             [conversation_saved (if ok1 then filename else "")])) as Hstep1.
  { erewrite receive_run; [|done|].
    - simpl. by rewrite insert_id.
    - simpl. unfold mbind, M_bind. fold w. by rewrite Hrun1. }
  unfold after. rewrite run_two, Hstep1. cbn [fst snd].
  erewrite receive_run; [|done|simpl; unfold mbind, M_bind; by rewrite Hrun2].
  simpl. split; [by rewrite insert_id|]. split; [by eexists _, _|].
  intros Hok1 Hok2. rewrite Hok1, Hok2. split; [done|].
  exists rest. split; [done|]. by rewrite lookup_insert_eq.
Qed.

Lemma end_conversation_twice_witness :
  (run all_up [Receive 7 end_conversation; Receive 7 end_conversation]
     (greeted all_up)).2
  = [conversation_saved "conversation_S0.json";
     conversation_saved "conversation_S0.json"].
Proof.
  destruct (end_conversation_twice all_up [Connect 7; Greet 7] 7 greeted_backend
              eq_refl) as (_ & _ & Hout).
  exact (proj1 (Hout eq_refl eq_refl)).
Defined.

(** C9.  In any state of the server and for any services, handling the
    disconnect of [sid] removes [sid] from the registry and touches no other
    entry; when [sid] was registered the world is the one the export leaves,
    whether the file could be written or not.  On the state so reached, a
    second handling of the disconnect of [sid] changes nothing and sends
    nothing. *)
Theorem disconnect_deregisters E (srv : Server) sid :
  let srv1 := on_disconnect E sid srv in
  sessions srv1 = delete sid (sessions srv)
  ∧ sessions srv1 !! sid = None
  ∧ (∀ b, sessions srv !! sid = Some b →
          world srv1 = (save_conversation E (b, world srv)).2.2)
  ∧ on_disconnect E sid srv1 = srv1
  ∧ step E (Disconnect sid) srv1 = (srv1, []).
Proof.
  intros srv1.
  assert (sessions srv1 = delete sid (sessions srv)) as Hreg
    by apply on_disconnect_sessions.
  assert (sessions srv1 !! sid = None) as Hgone
    by (rewrite Hreg; apply lookup_delete_eq).
  assert (on_disconnect E sid srv1 = srv1) as Hagain
    by (unfold on_disconnect at 1; by rewrite Hgone).
  split; [done|]. split; [done|]. split; [|split; [done|simpl; by rewrite Hagain]].
  intros b Hb. unfold srv1, on_disconnect. rewrite Hb.
  destruct (save_conversation_reads_only E b (world srv)) as (fn & w' & Hrun).
  by rewrite Hrun.
Qed.

Lemma disconnect_deregisters_witness :
  sessions (on_disconnect all_up 7 (greeted all_up)) !! 7%N = None
  ∧ on_disconnect all_up 7 (on_disconnect all_up 7 (greeted all_up))
    = on_disconnect all_up 7 (greeted all_up).
Proof.
  destruct (disconnect_deregisters all_up (greeted all_up) 7)
    as (_ & Hgone & _ & Hagain & _).
  split; [exact Hgone|exact Hagain].
Defined.

(** C10.  Greeting a registered session sends one [assistant_response]
    whose text is ["Hello! How may I help you today?"], while the entry
    appended to the log and the text given to the synthesis are
    [WELCOME_MESSAGE]; the two texts differ. *)
Theorem welcome_text_differs E (srv : Server) sid b :
  sessions srv !! sid = Some b →
  let w := world srv in
  let speech := text_to_speech_convert E (S (tick w)) WELCOME_MESSAGE in
  let entry := welcome_entry (now_isoformat E (tick w)) in
  let after := step E (Greet sid) srv in
  after.2 = [assistant_response "Hello! How may I help you today?"
               (b64encode E (audio_of speech)) true]
  ∧ sessions after.1 !! sid
    = Some (with_history b (conversation_history b ++ [entry]))
  ∧ calls (world after.1) = calls w ++ [TextToSpeech WELCOME_MESSAGE speech]
  ∧ content entry = WELCOME_MESSAGE
  ∧ "Hello! How may I help you today?" ≠ content entry.
Proof.
  intros Hb w speech entry after.
  assert (send_greeting E (b, w)
          = (Returned [assistant_response welcome_text
                         (b64encode E (audio_of speech)) true],
             (with_history b (conversation_history b ++ [entry]),
              advance (Some (TextToSpeech WELCOME_MESSAGE speech))
                (advance None w)))) as Hrun.
  { unfold send_greeting, try_except, mbind, M_bind.
    by rewrite get_welcome_audio_run. }
  unfold after. simpl step. erewrite in_session_run by done. simpl.
  rewrite lookup_insert_eq. by repeat split.
Qed.

Lemma welcome_text_differs_witness :
  (step all_up (Greet 7) (step all_up (Connect 7) boot).1).2
  = [assistant_response "Hello! How may I help you today?" "RI" true]
  ∧ sessions (step all_up (Greet 7) (step all_up (Connect 7) boot).1).1 !! 7%N
    = Some greeted_backend.
Proof.
  destruct (welcome_text_differs all_up (step all_up (Connect 7) boot).1 7
              {| conversation_history := [system_entry]; session_id := "S0" |}
              eq_refl) as (Hout & Hlog & _).
  split; [exact Hout|exact Hlog].
Defined.

(** * Further properties of the code *)

(** ** The window of [get_llm_response] *)

Lemma window_nil : window [] = [].
Proof. reflexivity. Qed.

Lemma last_drop_lt {A} (l : list A) k : k < length l → last (drop k l) = last l.
Proof.
  intros Hk. rewrite !last_lookup, length_drop, lookup_drop. f_equal. lia.
Qed.

Lemma window_length_eq (history : list Message) :
  length (window history) = min (length history) (MAX_CONVERSATION_HISTORY + 1).
Proof.
  destruct history as [|msg history]; [done|].
  rewrite window_cons, length_cons, length_fmap, length_drop.
  unfold MAX_CONVERSATION_HISTORY. simpl length. lia.
Qed.

Lemma window_length_le (history : list Message) : length (window history) ≤ 11.
Proof. rewrite window_length_eq. unfold MAX_CONVERSATION_HISTORY. lia. Qed.

Lemma window_head (history : list Message) :
  head (window history) = to_api <$> head history.
Proof. destruct history as [|msg history]; [done|]. by rewrite window_cons. Qed.

Lemma window_last (history : list Message) :
  last (window history) = to_api <$> last history.
Proof.
  destruct history as [|msg history]; [done|]. rewrite window_cons.
  destruct history as [|msg' history]; [done|].
  set (l := msg' :: history).
  assert (length l - MAX_CONVERSATION_HISTORY < length l) as Hk
    by (unfold l, MAX_CONVERSATION_HISTORY; simpl; lia).
  pose proof (last_drop_lt l _ Hk) as Hlast.
  destruct (drop (length l - MAX_CONVERSATION_HISTORY) l) as [|d ds] eqn:Hd.
  { apply (f_equal length) in Hd. rewrite length_drop in Hd. simpl in Hd. lia. }
  rewrite fmap_cons, last_cons_cons, <- fmap_cons, fmap_last, Hlast.
  unfold l. by rewrite last_cons_cons.
Qed.

(** X1.  For every log the window sent to the response generator has as
    many messages as the log, up to [MAX_CONVERSATION_HISTORY + 1]: never
    more than 11 messages, which is the system prompt and 10 entries, not 10
    exchanges of a user and an assistant entry. *)
Theorem window_length (history : list Message) :
  length (window history) = min (length history) (MAX_CONVERSATION_HISTORY + 1)
  ∧ length (window history) ≤ 11.
Proof. split; [apply window_length_eq|apply window_length_le]. Qed.

(** X2.  The window holds entries of the log only, stripped to role and
    content and in the order of the log; it starts with the first entry of
    the log and ends with its last entry, so the newest entry is never cut
    off. *)
Theorem window_sublist (history : list Message) :
  window history `sublist_of` (to_api <$> history)
  ∧ head (window history) = to_api <$> head history
  ∧ last (window history) = to_api <$> last history.
Proof.
  split; [|split; [apply window_head|apply window_last]].
  destruct history as [|msg history]; [done|].
  rewrite window_cons, fmap_cons. apply sublist_skip, fmap_sublist, sublist_drop.
Qed.

(** X3.  [get_llm_response] calls the response generator exactly once,
    whatever the log: the messages it sends end with the user message just
    received and are at most 11, and the method returns. *)
Theorem generator_sees_newest_message E (b : Backend) (w : World) user_message :
  ∃ msgs reply b' w',
    get_llm_response E user_message (b, w) = (Returned reply, (b', w'))
    ∧ calls w' = calls w
        ++ [ChatCompletion msgs (chat_completions_create E (S (tick w)) msgs)]
    ∧ last msgs = Some {| api_role := user; api_content := user_message |}
    ∧ length msgs ≤ 11.
Proof.
  pose proof (get_llm_response_run E user_message b w) as Hrun. simpl in Hrun.
  set (h := conversation_history b
              ++ [user_entry user_message (now_isoformat E (tick w))]) in *.
  exists (window h).
  assert (last (window h)
          = Some {| api_role := user; api_content := user_message |}) as Hlast.
  { rewrite window_last. unfold h. by rewrite last_snoc. }
  destruct (chat_completions_create E (S (tick w)) (window h)) as [reply|];
    eexists _, _, _; (split; [exact Hrun|]); (split; [done|]);
    (split; [done|apply window_length_le]).
Qed.

(** X4.  Lines 95-96 for any cap of at least 1: the truncation returns,
    keeps at most the cap plus one messages, all of them messages of the
    list in their order, and truncating again changes nothing. *)
Theorem keep_recent_cap n (api_messages : list ApiMessage) :
  0 < n →
  ∃ kept,
    keep_recent n api_messages = Returned kept
    ∧ length kept = min (length api_messages) (n + 1)
    ∧ kept `sublist_of` api_messages
    ∧ keep_recent n kept = Returned kept.
Proof.
  intros Hn. destruct api_messages as [|first l].
  { exists []. by rewrite keep_recent_nil. }
  exists (first :: drop (length l - n) l).
  split; [by apply keep_recent_cons|]. split; [|split].
  - rewrite !length_cons, length_drop. lia.
  - apply sublist_skip, sublist_drop.
  - rewrite keep_recent_cons by done. rewrite length_drop.
    replace (length l - (length l - n) - n) with 0 by lia. done.
Qed.

Lemma keep_recent_cap_witness :
  ∃ kept,
    keep_recent 2 (to_api <$> [system_entry; welcome_entry "T1";
                               user_entry "a" "T2"; assistant_entry "b" "T3"])
    = Returned kept
    ∧ length kept = 3.
Proof.
  destruct (keep_recent_cap 2
    (to_api <$> [system_entry; welcome_entry "T1";
                 user_entry "a" "T2"; assistant_entry "b" "T3"])
    ltac:(lia)) as (kept & Hkept & Hlen & _).
  exists kept. split; [exact Hkept|exact Hlen].
Defined.

(** X5.  Lines 95-96 for the cap 0: as [-0] is [0], the slice
    [api_messages[-0:]] is the whole list, so a list of more than one
    message is not cut down to its first message but comes back whole with
    its first message twice. *)
Theorem keep_recent_zero first (l : list ApiMessage) :
  l ≠ [] →
  keep_recent 0 (first :: l) = Returned (first :: first :: l).
Proof.
  intros Hl. unfold keep_recent.
  destruct (decide _) as [_|Hshort]; [done|].
  destruct l; [done|]. simpl in Hshort. lia.
Qed.

Lemma keep_recent_zero_witness :
  keep_recent 0 [to_api system_entry; to_api (welcome_entry "T1")]
  = Returned [to_api system_entry; to_api system_entry;
              to_api (welcome_entry "T1")].
Proof.
  exact (keep_recent_zero (to_api system_entry) [to_api (welcome_entry "T1")]
           ltac:(discriminate)).
Defined.

(** ** A [user_audio] event, in all its cases *)

(** The world after the three calls of a turn. *)
Lemma user_audio_step_run E (srv : Server) sid b a audio_data :
  sessions srv !! sid = Some b →
  b64decode E a = inl audio_data →
  let w := world srv in
  let r := transcriber_transcribe E (tick w) audio_data in
  let t := transcript_of r in
  let w1 := advance (Some (Transcribe audio_data r)) w in
  let h := conversation_history b
             ++ [user_entry t (now_isoformat E (S (tick w)))] in
  let c := chat_completions_create E (S (S (tick w))) (window h) in
  let w2 := advance (Some (ChatCompletion (window h) c)) (advance None w1) in
  step E (Receive sid (user_audio (Some a))) srv =
  if truthy_str t then
    match c with
    | Some reply =>
        let speech := text_to_speech_convert E (S (S (S (S (tick w))))) reply in
        ({| sessions :=
              <[sid := with_history b
                         (h ++ [assistant_entry reply
                                  (now_isoformat E (S (S (S (tick w)))))])]>
                (sessions srv);
            world := advance (Some (TextToSpeech reply speech)) (advance None w2) |},
         if truthy_str reply && truthy (audio_of speech)
         then [assistant_response reply (b64encode E (audio_of speech)) false]
         else [error "Failed to process audio"])
    | None =>
        let speech :=
          text_to_speech_convert E (S (S (S (tick w)))) llm_error_reply in
        ({| sessions := <[sid := with_history b h]> (sessions srv);
            world := advance (Some (TextToSpeech llm_error_reply speech)) w2 |},
         if truthy (audio_of speech)
         then [assistant_response llm_error_reply
                 (b64encode E (audio_of speech)) false]
         else [error "Failed to process audio"])
    end
  else ({| sessions := <[sid := b]> (sessions srv); world := w1 |},
        [error "Failed to process audio"]).
Proof.
  intros Hb Ha w r t w1 h c w2.
  pose proof (on_user_audio_run E a audio_data b w Ha) as Hmsg.
  destruct (truthy_str t) eqn:Ht.
  - assert (r = Some (Some t)) as Hr.
    { unfold t in *. by destruct r as [[?|]|]. }
    apply truthy_str_true in Ht.
    pose proof (spoken_turn_run E audio_data b w t Hr Ht) as Hrun.
    simpl in Hrun. fold h c in Hrun. rewrite Hrun in Hmsg. rewrite <- Hr in Hmsg.
    fold w1 w2 in Hmsg.
    destruct c as [reply|]; by erewrite receive_run by done.
  - rewrite process_user_audio_run in Hmsg. simpl in Hmsg.
    fold w r t in Hmsg. rewrite Ht in Hmsg. fold w1 in Hmsg.
    by erewrite receive_run by done.
Qed.

(** X6.  A [user_audio] event with decodable audio, for a registered
    session, goes one of three ways and no other: the transcription alone
    is called, nothing is logged and [error] is sent; or transcription,
    response generator and synthesis are called in this order, once each,
    and the log grows by the user entry when the generator raised, by the
    user entry and the assistant entry when it answered.  The synthesis is
    given the very text that is returned. *)
Theorem user_audio_cases E (srv : Server) sid b a audio_data :
  sessions srv !! sid = Some b →
  b64decode E a = inl audio_data →
  let after := step E (Receive sid (user_audio (Some a))) srv in
  ∃ new_calls new_entries,
    calls (world after.1) = calls (world srv) ++ new_calls
    ∧ sessions after.1 !! sid
      = Some (with_history b (conversation_history b ++ new_entries))
    ∧ ((∃ r, new_calls = [Transcribe audio_data r]
             ∧ new_entries = []
             ∧ after.2 = [error "Failed to process audio"])
       ∨ (∃ t msgs speech now,
             new_calls = [Transcribe audio_data (Some (Some t));
                          ChatCompletion msgs None;
                          TextToSpeech llm_error_reply speech]
             ∧ new_entries = [user_entry t now])
       ∨ (∃ t msgs reply speech now now',
             new_calls = [Transcribe audio_data (Some (Some t));
                          ChatCompletion msgs (Some reply);
                          TextToSpeech reply speech]
             ∧ new_entries = [user_entry t now; assistant_entry reply now'])).
Proof.
  intros Hb Ha after.
  pose proof (user_audio_step_run E srv sid b a audio_data Hb Ha) as Hstep.
  cbv zeta in Hstep. unfold after. clear after.
  set (w := world srv) in *.
  set (r := transcriber_transcribe E (tick w) audio_data) in *.
  destruct (truthy_str (transcript_of r)) eqn:Ht.
  - assert (r = Some (Some (transcript_of r))) as Hr by (by destruct r as [[?|]|]).
    set (t := transcript_of r) in *.
    destruct (chat_completions_create E _ _) as [reply|] eqn:Hc;
      rewrite Hstep; simpl; rewrite lookup_insert_eq.
    + eexists _, [_; _]. split; [by rewrite <- !app_assoc|].
      split; [by rewrite <- app_assoc|].
      right. right. rewrite Hr. by eexists _, _, _, _, _, _.
    + eexists _, [_]. split; [by rewrite <- !app_assoc|]. split; [done|].
      right. left. rewrite Hr. by eexists _, _, _, _.
  - rewrite Hstep. simpl. rewrite lookup_insert_eq.
    eexists _, []. split; [done|]. rewrite app_nil_r.
    split; [by destruct b|]. left. by eexists.
Qed.

Lemma user_audio_cases_witness :
  ∃ new_calls new_entries,
    calls (world (step all_up (Receive 7 (user_audio (Some "z")))
                    (greeted all_up)).1)
    = calls (world (greeted all_up)) ++ new_calls
    ∧ sessions (step all_up (Receive 7 (user_audio (Some "z")))
                  (greeted all_up)).1 !! 7%N
      = Some (with_history greeted_backend
                (conversation_history greeted_backend ++ new_entries))
    ∧ length new_calls ≤ 3.
Proof.
  destruct (user_audio_cases all_up (greeted all_up) 7 greeted_backend "z"
              [Byte.x7a] eq_refl eq_refl)
    as (new_calls & new_entries & Hcalls & Hlog & Hcases).
  exists new_calls, new_entries. split; [exact Hcalls|]. split; [exact Hlog|].
  destruct Hcases as [(r & -> & _)|[(t & msgs & speech & now & -> & _)
    |(t & msgs & reply & speech & now & now' & -> & _)]]; simpl; lia.
Defined.

(** X7.  Whenever a [user_audio] event is answered with an
    [assistant_response], its text is not empty and is the text the last
    call, the synthesis, was given; its audio is the encoding of the chunks
    the synthesis returned, which are not empty; and the key [is_welcome] is
    absent. *)
Theorem response_matches_speech E (srv : Server) sid b a audio_data text audio flag :
  sessions srv !! sid = Some b →
  b64decode E a = inl audio_data →
  let after := step E (Receive sid (user_audio (Some a))) srv in
  assistant_response text audio flag ∈ after.2 →
  flag = false
  ∧ text ≠ ""
  ∧ ∃ chunks,
      last (calls (world after.1)) = Some (TextToSpeech text (Some chunks))
      ∧ concat chunks ≠ []
      ∧ audio = b64encode E (concat chunks).
Proof.
  intros Hb Ha after.
  pose proof (user_audio_step_run E srv sid b a audio_data Hb Ha) as Hstep.
  cbv zeta in Hstep. unfold after. clear after. rewrite Hstep. clear Hstep.
  destruct (truthy_str _); [|by intros ?%list_elem_of_singleton].
  destruct (chat_completions_create E _ _) as [reply|]; simpl.
  - destruct (truthy_str reply) eqn:Hreply; simpl;
      [|by intros ?%list_elem_of_singleton].
    destruct (text_to_speech_convert E _ reply) as [chunks|] eqn:Hspeech; simpl;
      [|by intros ?%list_elem_of_singleton].
    destruct (concat chunks) eqn:Hchunks; simpl;
      intros [= -> -> ->]%list_elem_of_singleton.
    split; [done|]. split; [by apply truthy_str_true|].
    exists chunks. rewrite last_snoc, Hchunks. done.
  - destruct (text_to_speech_convert E _ llm_error_reply) as [chunks|] eqn:Hspeech;
      simpl; [|by intros ?%list_elem_of_singleton].
    destruct (concat chunks) eqn:Hchunks; simpl;
      intros [= -> -> ->]%list_elem_of_singleton.
    split; [done|]. split; [done|].
    exists chunks. rewrite last_snoc, Hchunks. done.
Qed.

Lemma response_matches_speech_witness :
  ∃ chunks,
    last (calls (world (step all_up (Receive 7 (user_audio (Some "z")))
                          (greeted all_up)).1))
    = Some (TextToSpeech "It is noon." (Some chunks))
    ∧ "RI" = b64encode all_up (concat chunks).
Proof.
  destruct (response_matches_speech all_up (greeted all_up) 7 greeted_backend
              "z" [Byte.x7a] "It is noon." "RI" false eq_refl eq_refl
              ltac:(vm_compute; left))
    as (_ & _ & chunks & Hlast & _ & Haudio).
  exists chunks. split; [exact Hlast|exact Haudio].
Defined.

(** X8.  A turn in which every stage delivers: the transcript is not
    empty, the response generator answers with a text that is not empty and
    the synthesis returns audio.  The client is sent one
    [assistant_response] with the reply and the encoded audio, and the log
    has the user entry and the assistant entry, stamped with the two clock
    readings of [get_llm_response]. *)
Theorem successful_turn E (srv : Server) sid b a audio_data t reply :
  sessions srv !! sid = Some b →
  b64decode E a = inl audio_data →
  let w := world srv in
  transcriber_transcribe E (tick w) audio_data = Some (Some t) →
  t ≠ "" →
  let h := conversation_history b
             ++ [user_entry t (now_isoformat E (S (tick w)))] in
  chat_completions_create E (S (S (tick w))) (window h) = Some reply →
  reply ≠ "" →
  let audio :=
    audio_of (text_to_speech_convert E (S (S (S (S (tick w))))) reply) in
  audio ≠ [] →
  let after := step E (Receive sid (user_audio (Some a))) srv in
  after.2 = [assistant_response reply (b64encode E audio) false]
  ∧ sessions after.1 !! sid
    = Some (with_history b
              (h ++ [assistant_entry reply (now_isoformat E (S (S (S (tick w)))))])).
Proof.
  intros Hb Ha w Hstt Ht h Hc Hreply audio Haudio after.
  pose proof (user_audio_step_run E srv sid b a audio_data Hb Ha) as Hstep.
  cbv zeta in Hstep. fold w in Hstep. rewrite Hstt in Hstep.
  cbn [transcript_of] in Hstep.
  apply truthy_str_true in Ht, Hreply. rewrite Ht in Hstep.
  fold h in Hstep. rewrite Hc in Hstep. fold audio in Hstep.
  rewrite Hreply in Hstep.
  unfold after. rewrite Hstep. simpl. rewrite lookup_insert_eq.
  split; [|done]. by destruct audio.
Qed.

Lemma successful_turn_witness :
  (step all_up (Receive 7 (user_audio (Some "z"))) (greeted all_up)).2
  = [assistant_response "It is noon." "RI" false].
Proof.
  exact (proj1 (successful_turn all_up (greeted all_up) 7 greeted_backend "z"
                  [Byte.x7a] "What time is it?" "It is noon."
                  eq_refl eq_refl eq_refl ltac:(discriminate) eq_refl
                  ltac:(discriminate) ltac:(discriminate))).
Defined.

(** X9.  When the response generator answers with the empty text, the
    turn is logged like any other - the user entry and an assistant entry
    with empty content - and the synthesis is still called, with the empty
    text; but the client is sent [error], whatever the synthesis returned. *)
Theorem empty_reply_turn E (srv : Server) sid b a audio_data t :
  sessions srv !! sid = Some b →
  b64decode E a = inl audio_data →
  let w := world srv in
  transcriber_transcribe E (tick w) audio_data = Some (Some t) →
  t ≠ "" →
  let h := conversation_history b
             ++ [user_entry t (now_isoformat E (S (tick w)))] in
  chat_completions_create E (S (S (tick w))) (window h) = Some "" →
  let after := step E (Receive sid (user_audio (Some a))) srv in
  after.2 = [error "Failed to process audio"]
  ∧ sessions after.1 !! sid
    = Some (with_history b
              (h ++ [assistant_entry "" (now_isoformat E (S (S (S (tick w)))))]))
  ∧ last (calls (world after.1))
    = Some (TextToSpeech ""
              (text_to_speech_convert E (S (S (S (S (tick w))))) "")).
Proof.
  intros Hb Ha w Hstt Ht h Hc after.
  pose proof (user_audio_step_run E srv sid b a audio_data Hb Ha) as Hstep.
  cbv zeta in Hstep. fold w in Hstep. rewrite Hstt in Hstep.
  cbn [transcript_of] in Hstep.
  apply truthy_str_true in Ht. rewrite Ht in Hstep.
  fold h in Hstep. rewrite Hc in Hstep.
  unfold after. rewrite Hstep. simpl. rewrite lookup_insert_eq, last_snoc.
  done.
Qed.

Lemma empty_reply_turn_witness :
  (step (scenario (Some (Some "What time is it?")) (Some "")
           (Some [[Byte.x52]]) true)
     (Receive 7 (user_audio (Some "z")))
     (greeted all_up)).2
  = [error "Failed to process audio"].
Proof.
  exact (proj1 (empty_reply_turn
                  (scenario (Some (Some "What time is it?")) (Some "")
                     (Some [[Byte.x52]]) true)
                  (greeted all_up) 7 greeted_backend "z"
                  [Byte.x7a] "What time is it?"
                  eq_refl eq_refl eq_refl ltac:(discriminate) eq_refl)).
Defined.

(** X10.  A [user_audio] event whose audio cannot be decoded - the key
    ["audio"] is missing, which raises [KeyError] with the text ['audio'],
    or [b64decode] raises - is answered with one [error] event carrying the
    text of the exception; no service is called and nothing changes, in the
    registry or in the world. *)
Theorem undecodable_audio E (srv : Server) sid b audio e :
  sessions srv !! sid = Some b →
  decode_audio E audio = Raised e →
  decode_audio E None = Raised "'audio'"
  ∧ step E (Receive sid (user_audio audio)) srv = (srv, [error e]).
Proof.
  intros Hb Hdecode. split; [done|].
  assert (on_message E (user_audio audio) (b, world srv)
          = (Returned [error e], (b, world srv))) as Hrun.
  { simpl. unfold try_except, mbind, M_bind, lift. by rewrite Hdecode. }
  rewrite (receive_run E sid _ srv b _ _ _ Hb Hrun).
  rewrite insert_id by done. by destruct srv.
Qed.

Lemma undecodable_audio_witness :
  step all_up (Receive 7 (user_audio None)) (greeted all_up)
  = (greeted all_up, [error "'audio'"]).
Proof.
  exact (proj2 (undecodable_audio all_up (greeted all_up) 7 greeted_backend
                  None "'audio'" eq_refl eq_refl)).
Defined.

(** ** Frames: what a step leaves alone *)


Lemma world_le_closed w0 : world_closed (world_le w0).
Proof.
  split.
  - intros c w (Htick & Hcalls & Hfiles). split; [simpl; lia|]. split; [|done].
    destruct c; simpl; [by apply prefix_app_r|done].
  - intros filename data w (Htick & Hcalls & Hfiles). split; [done|].
    split; [done|]. simpl. rewrite dom_insert_L. set_solver.
Qed.

Lemma world_le_refl w : world_le w w.
Proof. by split; [|split]. Qed.

Lemma world_le_trans w0 w1 w2 : world_le w0 w1 → world_le w1 w2 → world_le w0 w2.
Proof.
  intros (Ht1 & Hc1 & Hf1) (Ht2 & Hc2 & Hf2).
  split; [lia|]. split; [by etrans|set_solver].
Qed.

Section both_ok.

Context (E : Env) (P : Backend → Prop) (Q : World → Prop).
Context (HP : appendable P) (HQ : world_closed Q).

Lemma datetime_now_both : stable (both P Q) (datetime_now E).
Proof. intros [b w] r s' [Hb Hw] [= <- <-]. split; [done|]. by apply HQ. Qed.

Lemma history_append_both msg :
  role msg ≠ system → is_Some (timestamp msg) →
  stable (both P Q) (history_append msg).
Proof.
  intros Hrole Hts [b w] r s' [Hb Hw] [= <- <-]. split; [|done]. by apply HP.
Qed.

Lemma get_history_both : stable (both P Q) get_history.
Proof. by intros [b w] r s' HI [= <- <-]. Qed.

Lemma get_session_id_both : stable (both P Q) get_session_id.
Proof. by intros [b w] r s' HI [= <- <-]. Qed.

Lemma aai_transcribe_both audio_data :
  stable (both P Q) (aai_transcribe E audio_data).
Proof. intros [b w] r s' [Hb Hw] [= <- <-]. split; [done|]. by apply HQ. Qed.

Lemma openai_create_both api_messages :
  stable (both P Q) (openai_create E api_messages).
Proof. intros [b w] r s' [Hb Hw] [= <- <-]. split; [done|]. by apply HQ. Qed.

Lemma elevenlabs_convert_both text :
  stable (both P Q) (elevenlabs_convert E text).
Proof. intros [b w] r s' [Hb Hw] [= <- <-]. split; [done|]. by apply HQ. Qed.

Lemma json_dump_both filename data :
  stable (both P Q) (json_dump E filename data).
Proof.
  intros [b w] r s' [Hb Hw]. unfold json_dump.
  destruct (file_write E (tick w) filename); intros [= <- <-];
    (split; [done|]).
  - apply (proj2 HQ filename data
             (advance (Some (WriteFile filename data true)) w)).
    by apply HQ.
  - by apply HQ.
Qed.

Ltac both_tac :=
  repeat first
    [ apply stable_ret | apply stable_lift
    | apply stable_bind | apply stable_try
    | apply datetime_now_both | apply get_history_both
    | apply get_session_id_both
    | apply aai_transcribe_both | apply openai_create_both
    | apply elevenlabs_convert_both
    | apply history_append_both; [done | by eexists]
    | apply json_dump_both
    | intro ].

Lemma save_conversation_both : stable (both P Q) (save_conversation E).
Proof. unfold save_conversation. both_tac. Qed.

Lemma process_user_audio_both audio_data :
  stable (both P Q) (process_user_audio E audio_data).
Proof.
  unfold process_user_audio.
  apply stable_bind; [unfold transcribe_audio; both_tac|intros user_text].
  destruct (negb _); [apply stable_ret|].
  apply stable_bind; [unfold get_llm_response; both_tac|intros assistant_text].
  apply stable_bind; [unfold synthesize_speech; both_tac|intros; apply stable_ret].
Qed.

Lemma on_message_both data : stable (both P Q) (on_message E data).
Proof.
  destruct data as [audio| |]; simpl.
  - apply stable_try; [|intros; apply stable_ret].
    apply stable_bind; [apply stable_lift|intros audio_data].
    apply stable_bind; [apply process_user_audio_both|intros [text audio']].
    destruct (_ && _); apply stable_ret.
  - apply stable_bind; [apply save_conversation_both|intros; apply stable_ret].
  - apply stable_ret.
Qed.

Lemma send_greeting_both : stable (both P Q) (send_greeting E).
Proof.
  apply stable_try; [|intros; apply stable_ret].
  apply stable_bind; [unfold get_welcome_audio; both_tac|intros; apply stable_ret].
Qed.

End both_ok.

Lemma true_appendable : appendable (λ _, True).
Proof. done. Qed.





(** ** The world only grows *)

Section world_grows.

Context (E : Env).

Lemma in_session_world sid m (srv : Server) :
  (∀ w0, stable (both (λ _, True) (world_le w0)) m) →
  world_le (world srv) (world (in_session sid m srv).1).
Proof.
  intros Hm. unfold in_session.
  destruct (sessions srv !! sid) as [b|]; [|apply world_le_refl].
  destruct (m (b, world srv)) as [r [b' w']] eqn:Hrun.
  destruct (Hm (world srv) (b, world srv) _ _
              (conj I (world_le_refl _)) Hrun) as [_ Hw].
  by destruct r.
Qed.

Lemma step_world op (srv : Server) :
  world_le (world srv) (world (step E op srv).1).
Proof.
  destruct op as [sid|sid|sid data|sid|sid]; simpl.
  - by apply world_le_closed, world_le_refl.
  - apply in_session_world. intros w0.
    apply send_greeting_both; [apply true_appendable|apply world_le_closed].
  - apply in_session_world. intros w0.
    apply on_message_both; [apply true_appendable|apply world_le_closed].
  - unfold on_disconnect.
    destruct (sessions srv !! sid) as [b|]; [|apply world_le_refl].
    destruct (save_conversation E (b, world srv)) as [r [b' w']] eqn:Hrun.
    destruct (save_conversation_both E (λ _, True) (world_le (world srv))
                (world_le_closed _) (b, world srv) _ _
                (conj I (world_le_refl _)) Hrun) as [_ Hw].
    by destruct r.
  - apply world_le_refl.
Qed.

End world_grows.

(** X12.  Over any run of the server, from any state and whatever the
    services do, the world only grows: the clock count does not go back,
    the calls made before are the first calls recorded after, and every
    conversation file that existed still exists - the server never deletes
    a saved conversation. *)
Theorem world_only_grows E ops (srv : Server) :
  let after := (run E ops srv).1 in
  tick (world srv) ≤ tick (world after)
  ∧ calls (world srv) `prefix_of` calls (world after)
  ∧ (∀ filename, is_Some (files (world srv) !! filename) →
                 is_Some (files (world after) !! filename)).
Proof.
  assert (world_le (world srv) (world (run E ops srv).1)) as (Ht & Hc & Hf).
  { revert srv. induction ops as [|op ops IH]; intros srv; simpl.
    - apply world_le_refl.
    - pose proof (step_world E op srv) as Hstep.
      destruct (step E op srv) as [srv' out].
      specialize (IH srv'). destruct (run E ops srv') as [srv'' out'].
      by eapply world_le_trans. }
  split; [done|]. split; [done|].
  intros filename Hfile. apply elem_of_dom. apply Hf. by apply elem_of_dom.
Qed.

(** ** Export, further *)

Section export.

Context (E : Env).

(** The export of a session of a reachable state, by the outcome of the
    write. *)
Lemma reachable_save_run ops sid b :
  let srv := (run E ops boot).1 in
  sessions srv !! sid = Some b →
  ∃ rest,
    conversation_history b = system_entry :: rest
    ∧ ∀ w,
        let filename := conversation_filename (session_id b) in
        let data := {| data_session_id := session_id b;
                       start_time := head rest ≫= timestamp;
                       end_time := now_isoformat E (tick w);
                       messages := rest |} in
        let ok := file_write E (S (tick w)) filename in
        save_conversation E (b, w) =
        (Returned (if ok then filename else ""),
         (b, {| tick := S (S (tick w));
                files := if ok then <[filename := data]> (files w) else files w;
                calls := calls w ++ [WriteFile filename data ok] |})).
Proof.
  intros srv Hb.
  destruct (run_ok E ops boot boot_ok) as [Hreg _]. fold srv in Hreg.
  destruct (log_ok_split _ (Hreg sid b Hb)) as (rest & Hlog & Hrole & Hts).
  exists rest. split; [done|]. intros w.
  by apply save_conversation_run.
Qed.

End export.





Lemma string_length_app (s t : string) :
  String.length (s +:+ t) = String.length s + String.length t.
Proof. induction s as [|c s IH]; simpl; [done|by rewrite IH]. Qed.

Lemma append_inj_r (t s1 s2 : string) : s1 +:+ t = s2 +:+ t → s1 = s2.
Proof.
  revert s2. induction s1 as [|c s1 IH]; intros [|c2 s2] Heq.
  - done.
  - apply (f_equal String.length) in Heq.
    rewrite !string_length_app in Heq. simpl in Heq. lia.
  - apply (f_equal String.length) in Heq.
    rewrite !string_length_app in Heq. simpl in Heq. lia.
  - injection Heq as -> Heq. f_equal. by apply IH.
Qed.

(** X15.  The file name of an export determines the session identity:
    two sessions are exported to the same file exactly when their
    [session_id]s are equal. *)
Theorem conversation_filename_inj (sid1 sid2 : string) :
  conversation_filename sid1 = conversation_filename sid2 ↔ sid1 = sid2.
Proof.
  split; [|by intros ->]. unfold conversation_filename. intros Heq.
  apply (inj (String.app "conversation_")) in Heq.
  by apply append_inj_r in Heq.
Qed.

(** X16.  Two sessions of a reachable state that carry the same
    [session_id] - it is the clock at construction, read to the second -
    are exported to one file: after [end_conversation] for the first and
    then for the second, both answered with the same name, the file holds
    the record of the second session; the record of the first is replaced. *)
Theorem same_second_sessions_collide E ops sid1 sid2 b1 b2 :
  let srv := (run E ops boot).1 in
  let w := world srv in
  let filename := conversation_filename (session_id b1) in
  sid1 ≠ sid2 →
  sessions srv !! sid1 = Some b1 →
  sessions srv !! sid2 = Some b2 →
  session_id b1 = session_id b2 →
  file_write E (S (tick w)) filename = true →
  file_write E (S (S (S (tick w)))) filename = true →
  let after :=
    run E [Receive sid1 end_conversation; Receive sid2 end_conversation] srv in
  after.2 = [conversation_saved filename; conversation_saved filename]
  ∧ ∃ rest2,
      conversation_history b2 = system_entry :: rest2
      ∧ files (world after.1) !! filename
        = Some {| data_session_id := session_id b2;
                  start_time := head rest2 ≫= timestamp;
                  end_time := now_isoformat E (S (S (tick w)));
                  messages := rest2 |}.
Proof.
  intros srv w filename Hne Hb1 Hb2 Hsid Hok1 Hok2 after.
  destruct (reachable_save_run E ops sid1 b1 Hb1) as (rest1 & Hlog1 & Hsave1).
  destruct (reachable_save_run E ops sid2 b2 Hb2) as (rest2 & Hlog2 & Hsave2).
  specialize (Hsave1 w). cbv zeta in Hsave1. fold filename in Hsave1.
  rewrite Hok1 in Hsave1.
  set (w1 := {| tick := S (S (tick w));
                files := <[filename := {| data_session_id := session_id b1;
                                          start_time := head rest1 ≫= timestamp;
                                          end_time := now_isoformat E (tick w);
                                          messages := rest1 |}]> (files w);
                calls := calls w
                  ++ [WriteFile filename
                        {| data_session_id := session_id b1;
                           start_time := head rest1 ≫= timestamp;
                           end_time := now_isoformat E (tick w);
                           messages := rest1 |} true] |}) in *.
  specialize (Hsave2 w1). cbv zeta in Hsave2. rewrite <- Hsid in Hsave2.
  fold filename in Hsave2. simpl tick in Hsave2. rewrite Hok2 in Hsave2.
  assert (step E (Receive sid1 end_conversation) srv
          = ({| sessions := sessions srv; world := w1 |},
             [conversation_saved filename])) as Hstep1.
  { erewrite receive_run;
      [|done|simpl; unfold mbind, M_bind; fold srv w; by rewrite Hsave1].
    by rewrite insert_id. }
  unfold after. rewrite run_two, Hstep1. cbn [fst snd].
  erewrite receive_run;
    [|done|simpl; unfold mbind, M_bind; by rewrite Hsave2].
  simpl. split; [done|]. exists rest2. split; [done|].
  by rewrite lookup_insert_eq, Hsid.
Qed.

Lemma same_second_sessions_collide_witness :
  (run same_second [Receive 7 end_conversation; Receive 8 end_conversation]
     (run same_second
        [Connect 7; Connect 8; Greet 7; Greet 8;
         Receive 7 (user_audio (Some "z"))] boot).1).2
  = [conversation_saved "conversation_20240101_120000.json";
     conversation_saved "conversation_20240101_120000.json"].
Proof.
  exact (proj1 (same_second_sessions_collide same_second
    [Connect 7; Connect 8; Greet 7; Greet 8; Receive 7 (user_audio (Some "z"))]
    7 8
    {| conversation_history :=
         [system_entry; welcome_entry "T2"; user_entry "What time is it?" "T7";
          assistant_entry "It is noon." "T9"];
       session_id := "20240101_120000" |}
    {| conversation_history := [system_entry; welcome_entry "T4"];
       session_id := "20240101_120000" |}
    ltac:(discriminate) eq_refl eq_refl eq_refl eq_refl eq_refl)).
Defined.

(** ** The API keys *)

Lemma key_missing_false key :
  key_missing key = false ↔ ∃ s, key = Some s ∧ s ≠ "".
Proof.
  destruct key as [[|c s]|]; simpl; split; try done.
  - by intros (s & [= <-] & ?).
  - intros _. by eexists.
  - by intros (s & ? & ?).
Qed.

(** X17.  The endpoint accepts a connection only with the three API keys
    set to strings that are not empty.  Then it does what [on_connect]
    does.  Otherwise the constructor raises - an empty key counts as a
    missing one - and the endpoint ends with nothing registered, nothing
    sent and the world untouched, the clock not even read. *)
Theorem accept_needs_keys E keys sid (srv : Server) :
  let ready :=
    ∃ a o l,
      ASSEMBLYAI_API_KEY keys = Some a ∧ a ≠ ""
      ∧ OPENAI_API_KEY keys = Some o ∧ o ≠ ""
      ∧ ELEVENLABS_API_KEY keys = Some l ∧ l ≠ "" in
  (ready → websocket_accept E keys sid srv = on_connect E sid srv)
  ∧ (¬ ready →
     websocket_accept E keys sid srv = (srv, [])
     ∧ ∃ e, VoiceAssistantBackend E keys (world srv) = (Raised e, world srv)).
Proof.
  intros ready. unfold websocket_accept, VoiceAssistantBackend.
  destruct (key_missing (ASSEMBLYAI_API_KEY keys)) eqn:Ha;
    [|destruct (key_missing (OPENAI_API_KEY keys)) eqn:Ho;
      [|destruct (key_missing (ELEVENLABS_API_KEY keys)) eqn:Hl]].
  4:{ split; [done|]. intros Hnot. destruct Hnot.
      apply key_missing_false in Ha as (a & ? & ?), Ho as (o & ? & ?),
        Hl as (l & ? & ?).
      by exists a, o, l. }
  all: split; [|intros _; split; [by destruct srv|by eexists]].
  all: intros (a & o & l & Hka & Hna & Hko & Hno & Hkl & Hnl).
  - rewrite Hka in Ha. simpl in Ha. apply truthy_str_true in Hna. by rewrite Hna in Ha.
  - rewrite Hko in Ho. simpl in Ho. apply truthy_str_true in Hno. by rewrite Hno in Ho.
  - rewrite Hkl in Hl. simpl in Hl. apply truthy_str_true in Hnl. by rewrite Hnl in Hl.
Qed.

Lemma accept_needs_keys_witness :
  websocket_accept all_up
    {| ASSEMBLYAI_API_KEY := Some "k1"; OPENAI_API_KEY := Some "";
       ELEVENLABS_API_KEY := Some "k3" |} 7 boot
  = (boot, []).
Proof.
  refine (proj1 (proj2 (accept_needs_keys all_up
    {| ASSEMBLYAI_API_KEY := Some "k1"; OPENAI_API_KEY := Some "";
       ELEVENLABS_API_KEY := Some "k3" |} 7 boot) _)).
  intros (a & o & l & _ & _ & Ho & Hno & _). injection Ho as <-. by apply Hno.
Defined.

(** ** The temporary file of [transcribe_audio] *)

(** X18.  The text [transcribe_audio_files] returns is the text
    [transcribe_audio] returns when the transcriber of the environment
    answers with the outcome of the [try] block: the text of the transcript
    when nothing raised, and the empty text when the write, the
    transcription or the removal raised or the transcript has no text. *)
Theorem transcribe_audio_files_text E (b : Backend) (w : World) sid audio_data run disk :
  transcriber_transcribe E (tick w) audio_data = try_block_outcome run →
  (transcribe_audio E audio_data (b, w)).1
  = Returned (transcribe_audio_files sid audio_data run disk).1.
Proof.
  intros Henv. rewrite transcribe_audio_run. simpl. rewrite Henv.
  unfold transcribe_audio_files, try_block_outcome, write_temp, remove_temp.
  destruct (write_raises run) as [[held|]|]; simpl; try done.
  destruct (transcript run) as [text|]; simpl; [|done].
  rewrite lookup_insert_eq. rewrite bool_decide_eq_true_2 by done.
  destruct (remove_raises run); simpl; [done|].
  by destruct text as [[|c t]|].
Qed.

Lemma transcribe_audio_files_text_witness :
  (transcribe_audio all_up [Byte.x7a] (greeted_backend, world (greeted all_up))).1
  = Returned
      (transcribe_audio_files "S0" [Byte.x7a]
         {| write_raises := None; transcript := Some (Some "What time is it?");
            remove_raises := false |} ∅).1.
Proof.
  exact (transcribe_audio_files_text all_up greeted_backend
           (world (greeted all_up)) "S0" [Byte.x7a]
           {| write_raises := None; transcript := Some (Some "What time is it?");
              remove_raises := false |} ∅ eq_refl).
Defined.

(** X19.  What [transcribe_audio] leaves on disk.  No file but the
    temporary file of the session is ever touched.  When nothing raises,
    the temporary file is gone afterwards.  When the file was written and
    the transcription raises, the file is not cleaned up: it stays, holding
    the audio, and the empty text is returned. *)
Theorem temp_file_fate sid audio_data run (disk : gmap string bytes) :
  let temp_file := temp_audio_filename sid in
  let after := transcribe_audio_files sid audio_data run disk in
  (∀ f, f ≠ temp_file → after.2 !! f = disk !! f)
  ∧ (try_block_outcome run ≠ None → after.2 !! temp_file = None)
  ∧ (write_raises run = None → transcript run = None →
     after = ("", <[temp_file := audio_data]> disk)).
Proof.
  intros temp_file after. unfold after, transcribe_audio_files.
  fold temp_file. unfold try_block_outcome, write_temp, remove_temp.
  destruct (write_raises run) as [[held|]|]; simpl.
  - split; [|done]. intros f Hf. by rewrite lookup_insert_ne.
  - split; [|done]. intros f Hf. by rewrite lookup_delete_ne.
  - destruct (transcript run) as [text|]; simpl.
    + rewrite lookup_insert_eq. rewrite bool_decide_eq_true_2 by done.
      destruct (remove_raises run); simpl.
      * split; [|done]. intros f Hf. by rewrite lookup_insert_ne.
      * split; [|split; [|done]].
        -- intros f Hf. by rewrite lookup_delete_ne, lookup_insert_ne.
        -- intros _. apply lookup_delete_eq.
    + split; [|done]. intros f Hf. by rewrite lookup_insert_ne.
Qed.

Lemma temp_file_fate_witness :
  transcribe_audio_files "S0" [Byte.x7a]
    {| write_raises := None; transcript := None; remove_raises := false |} ∅
  = ("", {[ "temp_audio_S0.wav" := [Byte.x7a] ]}).
Proof.
  exact (proj2 (proj2 (temp_file_fate "S0" [Byte.x7a]
    {| write_raises := None; transcript := None; remove_raises := false |} ∅))
    eq_refl eq_refl).
Defined.

(** ** The effect of a step on the log and on the calls *)

Section step_effect.

Context (E : Env).

Lemma request_ok_window (b : Backend) t now :
  log_ok (conversation_history b) →
  request_ok (window (conversation_history b ++ [user_entry t now])).
Proof.
  intros (rest & Hlog & _). split; [|split].
  - by rewrite window_head, Hlog.
  - apply window_length_le.
  - exists t. by rewrite window_last, last_snoc.
Qed.

Lemma with_history_nil (b : Backend) :
  with_history b (conversation_history b ++ []) = b.
Proof. rewrite app_nil_r. by destruct b. Qed.

Lemma greet_step_run (srv : Server) sid b :
  sessions srv !! sid = Some b →
  let w := world srv in
  let speech := text_to_speech_convert E (S (tick w)) WELCOME_MESSAGE in
  step E (Greet sid) srv =
  ({| sessions :=
        <[sid := with_history b
                   (conversation_history b
                      ++ [welcome_entry (now_isoformat E (tick w))])]>
          (sessions srv);
      world := advance (Some (TextToSpeech WELCOME_MESSAGE speech))
                 (advance None w) |},
   [assistant_response welcome_text (b64encode E (audio_of speech)) true]).
Proof.
  intros Hb w speech. simpl step. erewrite in_session_run; [done|done|].
  unfold send_greeting, try_except, mbind, M_bind.
  by rewrite get_welcome_audio_run.
Qed.

Lemma quiet_step_run (srv : Server) sid b data out :
  sessions srv !! sid = Some b →
  on_message E data (b, world srv) = (Returned out, (b, world srv)) →
  step E (Receive sid data) srv = (srv, out).
Proof.
  intros Hb Hrun. rewrite (receive_run E sid data srv b _ _ _ Hb Hrun).
  rewrite insert_id by done. by destruct srv.
Qed.

Lemma undecodable_step_run (srv : Server) sid b audio e :
  sessions srv !! sid = Some b →
  decode_audio E audio = Raised e →
  step E (Receive sid (user_audio audio)) srv = (srv, [error e]).
Proof.
  intros Hb Hdecode. apply (quiet_step_run srv sid b); [done|].
  simpl. unfold try_except, mbind, M_bind, lift. by rewrite Hdecode.
Qed.

(** A step of the handler of a registered session whose log is sound. *)
Lemma handler_step_effect (srv : Server) sid b op :
  log_ok (conversation_history b) →
  sessions srv !! sid = Some b →
  op = Greet sid ∨ (∃ data, op = Receive sid data) →
  ∃ new_entries new_calls,
    sessions (step E op srv).1
    = <[sid := with_history b (conversation_history b ++ new_entries)]>
        (sessions srv)
    ∧ calls (world (step E op srv).1) = calls (world srv) ++ new_calls
    ∧ appended new_entries
    ∧ requests_ok new_calls.
Proof.
  intros Hlog Hb Hop.
  assert (∀ out, step E op srv = (srv, out) →
    ∃ new_entries new_calls,
      sessions (step E op srv).1
      = <[sid := with_history b (conversation_history b ++ new_entries)]>
          (sessions srv)
      ∧ calls (world (step E op srv).1) = calls (world srv) ++ new_calls
      ∧ appended new_entries
      ∧ requests_ok new_calls) as Hquiet.
  { intros out ->. exists [], []. rewrite with_history_nil, app_nil_r. simpl.
    split; [by rewrite insert_id|]. split; [done|]. split; [constructor|].
    intros msgs r Hin. by apply not_elem_of_nil in Hin. }
  destruct Hop as [->|[[audio| |] ->]].
  - rewrite (greet_step_run srv sid b Hb). simpl.
    eexists [_], [_]. split; [done|]. split; [by rewrite <- ?app_assoc|].
    split; [constructor|].
    intros msgs r Hin. by apply list_elem_of_singleton in Hin.
  - destruct (decode_audio E audio) as [audio_data|e] eqn:Hdecode.
    2:{ eapply Hquiet. by apply (undecodable_step_run srv sid b). }
    destruct audio as [a|]; [|done]. unfold decode_audio in Hdecode.
    destruct (b64decode E a) as [audio_data'|] eqn:Ha; [|done].
    injection Hdecode as ->.
    rewrite (user_audio_step_run E srv sid b a audio_data Hb Ha).
    cbv zeta.
    destruct (truthy_str _).
    + destruct (chat_completions_create E _ _) as [reply|]; simpl.
      * eexists [_; _], [_; _; _]. split; [by rewrite <- ?app_assoc|].
        split; [by rewrite <- ?app_assoc|]. split; [constructor|].
        intros msgs r Hin. rewrite !elem_of_cons in Hin.
        destruct Hin as [?|[[= -> _]|[?|Hin]]]; try done.
        -- by apply request_ok_window.
        -- by apply not_elem_of_nil in Hin.
      * eexists [_], [_; _; _]. split; [done|].
        split; [by rewrite <- ?app_assoc|]. split; [constructor|].
        intros msgs r Hin. rewrite !elem_of_cons in Hin.
        destruct Hin as [?|[[= -> _]|[?|Hin]]]; try done.
        -- by apply request_ok_window.
        -- by apply not_elem_of_nil in Hin.
    + simpl. exists [], [Transcribe audio_data
                          (transcriber_transcribe E (tick (world srv)) audio_data)].
      rewrite with_history_nil. split; [done|]. split; [done|].
      split; [constructor|].
      intros msgs r Hin. by apply list_elem_of_singleton in Hin.
  - destruct (log_ok_split _ Hlog) as (rest & Hrest & Hrole & Hts).
    pose proof (save_conversation_run E b (world srv) rest Hrest Hrole Hts) as Hsave.
    cbv zeta in Hsave.
    erewrite receive_run;
      [|done|simpl; unfold mbind, M_bind; by rewrite Hsave].
    simpl. eexists [], [_]. rewrite with_history_nil.
    split; [done|]. split; [done|]. split; [constructor|].
    intros msgs r Hin. by apply list_elem_of_singleton in Hin.
  - eapply Hquiet. by apply (quiet_step_run srv sid b).
Qed.

End step_effect.

Section server_effect.

Context (E : Env).

Lemma requests_ok_nil : requests_ok [].
Proof. intros msgs r Hin. by apply not_elem_of_nil in Hin. Qed.

Lemma requests_ok_app recorded new_calls :
  requests_ok recorded → requests_ok new_calls →
  requests_ok (recorded ++ new_calls).
Proof.
  intros Hold Hnew msgs r Hin. apply elem_of_app in Hin as [Hin|Hin]; eauto.
Qed.

(** The calls a step adds. *)
Lemma step_calls (srv : Server) op :
  server_ok srv →
  ∃ new_calls,
    calls (world (step E op srv).1) = calls (world srv) ++ new_calls
    ∧ requests_ok new_calls.
Proof.
  intros [Hreg Hw].
  assert (∀ sid, op = Greet sid ∨ (∃ data, op = Receive sid data) →
    ∃ new_calls,
      calls (world (step E op srv).1) = calls (world srv) ++ new_calls
      ∧ requests_ok new_calls) as Hhandler.
  { intros sid Hop. destruct (sessions srv !! sid) as [b|] eqn:Hb.
    - destruct (handler_step_effect E srv sid b op (Hreg _ _ Hb) Hb Hop)
        as (new_entries & new_calls & _ & Hcalls & _ & Hok).
      by exists new_calls.
    - exists []. rewrite app_nil_r. split; [|apply requests_ok_nil].
      destruct Hop as [->|[data ->]]; simpl; unfold in_session; by rewrite Hb. }
  destruct op as [sid|sid|sid data|sid|sid]; simpl.
  - exists []. rewrite app_nil_r. split; [done|apply requests_ok_nil].
  - apply (Hhandler sid). by left.
  - apply (Hhandler sid). right. by exists data.
  - unfold on_disconnect. destruct (sessions srv !! sid) as [b|] eqn:Hb.
    + destruct (log_ok_split _ (Hreg _ _ Hb)) as (rest & Hrest & Hrole & Hts).
      pose proof (save_conversation_run E b (world srv) rest Hrest Hrole Hts)
        as Hsave.
      cbv zeta in Hsave. rewrite Hsave. simpl. eexists [_]. split; [done|].
      intros msgs r Hin. by apply list_elem_of_singleton in Hin.
    + exists []. rewrite app_nil_r. split; [done|apply requests_ok_nil].
  - exists []. rewrite app_nil_r. split; [done|apply requests_ok_nil].
Qed.

(** Where a session registered after a step comes from. *)
Lemma step_log (srv : Server) op sid b' :
  server_ok srv →
  op ≠ Connect sid →
  sessions (step E op srv).1 !! sid = Some b' →
  ∃ b new_entries,
    sessions srv !! sid = Some b
    ∧ b' = with_history b (conversation_history b ++ new_entries)
    ∧ appended new_entries.
Proof.
  intros [Hreg Hw] Hop.
  assert (sessions srv !! sid = Some b' →
    ∃ b new_entries,
      sessions srv !! sid = Some b
      ∧ b' = with_history b (conversation_history b ++ new_entries)
      ∧ appended new_entries) as Hsame.
  { intros Hb'. exists b', []. rewrite with_history_nil.
    split; [done|]. split; [done|constructor]. }
  assert (∀ sid0, op = Greet sid0 ∨ (∃ data, op = Receive sid0 data) →
    sessions (step E op srv).1 !! sid = Some b' →
    ∃ b new_entries,
      sessions srv !! sid = Some b
      ∧ b' = with_history b (conversation_history b ++ new_entries)
      ∧ appended new_entries) as Hhandler.
  { intros sid0 Hop0. destruct (sessions srv !! sid0) as [b0|] eqn:Hb0.
    - destruct (handler_step_effect E srv sid0 b0 op (Hreg _ _ Hb0) Hb0 Hop0)
        as (new_entries & new_calls & -> & _ & Happ & _).
      destruct (decide (sid0 = sid)) as [->|Hne].
      + rewrite lookup_insert_eq. intros [= <-]. by exists b0, new_entries.
      + rewrite lookup_insert_ne by done. apply Hsame.
    - assert (step E op srv = (srv, [])) as ->; [|apply Hsame].
      destruct Hop0 as [->|[data ->]]; simpl; unfold in_session; by rewrite Hb0. }
  destruct op as [sid0|sid0|sid0 data|sid0|sid0].
  - simpl. rewrite lookup_insert_ne by congruence. apply Hsame.
  - apply (Hhandler sid0). by left.
  - apply (Hhandler sid0). right. by exists data.
  - simpl. rewrite on_disconnect_sessions.
    destruct (decide (sid0 = sid)) as [->|Hne].
    + by rewrite lookup_delete_eq.
    + rewrite lookup_delete_ne by done. apply Hsame.
  - simpl. destruct (decide (sid0 = sid)) as [->|Hne].
    + by rewrite lookup_delete_eq.
    + rewrite lookup_delete_ne by done. apply Hsame.
Qed.

Lemma run_requests_ok ops (srv : Server) :
  server_ok srv →
  requests_ok (calls (world srv)) →
  requests_ok (calls (world (run E ops srv).1)).
Proof.
  revert srv. induction ops as [|op ops IH]; intros srv Hsrv Hok; simpl; [done|].
  pose proof (step_ok E op srv Hsrv) as Hstep.
  destruct (step_calls srv op Hsrv) as (new_calls & Hcalls & Hnew).
  destruct (step E op srv) as [srv' out]. simpl in *.
  specialize (IH srv' Hstep). destruct (run E ops srv') as [srv'' out'].
  apply IH. rewrite Hcalls. by apply requests_ok_app.
Qed.

Lemma answers_follow_questions_app (history new_entries : list Message) :
  answers_follow_questions history →
  appended new_entries →
  answers_follow_questions (history ++ new_entries).
Proof.
  intros Hold Hnew i msg Hmsg Hrole Htype.
  destruct (decide (S i < length history)) as [Hin|Hout].
  { rewrite lookup_app_l in Hmsg by done.
    destruct (Hold i msg Hmsg Hrole Htype) as (t & now & Hi).
    exists t, now. rewrite lookup_app_l by lia. done. }
  rewrite lookup_app_r in Hmsg by lia.
  destruct Hnew as [|now|t now|t now reply now'].
  - done.
  - destruct (S i - length history) as [|[|k]]; simpl in Hmsg; [|done..].
    injection Hmsg as <-. done.
  - destruct (S i - length history) as [|[|k]]; simpl in Hmsg; [|done..].
    injection Hmsg as <-. done.
  - destruct (S i - length history) as [|[|k]] eqn:Hk; simpl in Hmsg; [| |done].
    + injection Hmsg as <-. done.
    + exists t, now. rewrite lookup_app_r by lia.
      by replace (i - length history) with 0 by lia.
Qed.

Lemma run_answers ops (srv : Server) :
  server_ok srv →
  (∀ sid b, sessions srv !! sid = Some b →
            answers_follow_questions (conversation_history b)) →
  ∀ sid b, sessions (run E ops srv).1 !! sid = Some b →
           answers_follow_questions (conversation_history b).
Proof.
  revert srv. induction ops as [|op ops IH]; intros srv Hsrv Hold; simpl; [done|].
  pose proof (step_ok E op srv Hsrv) as Hstep.
  assert (∀ sid b, sessions (step E op srv).1 !! sid = Some b →
                   answers_follow_questions (conversation_history b)) as Hnew.
  { intros sid b' Hb'. destruct (decide (op = Connect sid)) as [->|Hop].
    - simpl in Hb'. rewrite lookup_insert_eq in Hb'. injection Hb' as <-.
      intros i msg Hmsg. by destruct i.
    - destruct (step_log srv op sid b' Hsrv Hop Hb')
        as (b & new_entries & Hb & -> & Happ).
      simpl. apply answers_follow_questions_app; [by eapply Hold|done]. }
  destruct (step E op srv) as [srv' out]. simpl in *.
  specialize (IH srv' Hstep Hnew). by destruct (run E ops srv').
Qed.

End server_effect.

(** X20.  In a reachable state, a step of the server other than a new
    connection under the same key changes the log of a session that is
    registered afterwards only by appending: nothing, a welcome entry, a
    user entry, or a user entry followed by one assistant entry.  The
    [session_id] stays. *)
Theorem step_appends E ops op sid b b' :
  let srv := (run E ops boot).1 in
  op ≠ Connect sid →
  sessions srv !! sid = Some b →
  sessions (step E op srv).1 !! sid = Some b' →
  session_id b' = session_id b
  ∧ ∃ new_entries,
      conversation_history b' = conversation_history b ++ new_entries
      ∧ (new_entries = []
         ∨ (∃ now, new_entries = [welcome_entry now])
         ∨ (∃ t now, new_entries = [user_entry t now])
         ∨ (∃ t now reply now',
               new_entries = [user_entry t now; assistant_entry reply now'])).
Proof.
  intros srv Hop Hb Hb'.
  destruct (step_log E srv op sid b' (run_ok E ops boot boot_ok) Hop Hb')
    as (b0 & new_entries & Hb0 & -> & Happ).
  assert (b0 = b) as -> by (fold srv in Hb; congruence).
  split; [done|]. exists new_entries. split; [done|].
  destruct Happ; eauto 10.
Qed.

Lemma step_appends_witness :
  ∃ new_entries,
    [system_entry; welcome_entry "T1"; user_entry "What time is it?" "T4"]
    = conversation_history greeted_backend ++ new_entries.
Proof.
  destruct (step_appends llm_down [Connect 7; Greet 7]
              (Receive 7 (user_audio (Some "z"))) 7 greeted_backend
              (with_history greeted_backend
                 [system_entry; welcome_entry "T1";
                  user_entry "What time is it?" "T4"])
              ltac:(discriminate) eq_refl eq_refl)
    as (_ & new_entries & Hlog & _).
  exists new_entries. exact Hlog.
Defined.

(** X21.  Every request ever made to the response generator, in any run
    of the server from its start, has the system prompt as its first
    message, a user message as its last, and at most 11 messages. *)
Theorem generator_requests E ops msgs r :
  ChatCompletion msgs r ∈ calls (world (run E ops boot).1) →
  head msgs = Some {| api_role := system; api_content := SYSTEM_PROMPT |}
  ∧ length msgs ≤ 11
  ∧ ∃ text, last msgs = Some {| api_role := user; api_content := text |}.
Proof.
  apply (run_requests_ok E ops boot boot_ok). simpl. apply requests_ok_nil.
Qed.

Lemma generator_requests_witness :
  head (window [system_entry; welcome_entry "T1";
                user_entry "What time is it?" "T4"])
  = Some {| api_role := system; api_content := SYSTEM_PROMPT |}.
Proof.
  refine (proj1 (generator_requests llm_down
    [Connect 7; Greet 7; Receive 7 (user_audio (Some "z"))]
    (window [system_entry; welcome_entry "T1";
             user_entry "What time is it?" "T4"]) None _)).
  vm_compute. do 2 right. left.
Defined.

(** X22.  In every reachable state and for every registered session, an
    assistant entry of the log that is not a welcome entry comes right
    after a user entry: a reply is never logged without the message it
    answers. *)
Theorem replies_follow_user_entries E ops sid b i msg :
  sessions (run E ops boot).1 !! sid = Some b →
  conversation_history b !! S i = Some msg →
  role msg = assistant →
  type msg = None →
  ∃ t now, conversation_history b !! i = Some (user_entry t now).
Proof.
  intros Hb. apply (run_answers E ops boot boot_ok) with sid; [|done].
  intros sid0 b0. simpl. by rewrite lookup_empty.
Qed.

Lemma replies_follow_user_entries_witness :
  ∃ t now,
    [system_entry; welcome_entry "T1"; user_entry "What time is it?" "T4";
     assistant_entry "It is noon." "T6"] !! 2 = Some (user_entry t now).
Proof.
  exact (replies_follow_user_entries all_up
    [Connect 7; Greet 7; Receive 7 (user_audio (Some "z"))] 7
    (with_history greeted_backend
       [system_entry; welcome_entry "T1"; user_entry "What time is it?" "T4";
        assistant_entry "It is noon." "T6"])
    2 (assistant_entry "It is noon." "T6") eq_refl eq_refl eq_refl eq_refl).
Defined.

(** X23.  The greeting does not depend on the synthesis: when it raises
    or returns no audio, the welcome entry is logged all the same and the
    client is still sent the [assistant_response] of the greeting, with the
    encoding of empty audio - where a user turn without audio is answered
    with [error]. *)
Theorem greeting_without_audio E (srv : Server) sid b :
  sessions srv !! sid = Some b →
  let w := world srv in
  audio_of (text_to_speech_convert E (S (tick w)) WELCOME_MESSAGE) = [] →
  let after := step E (Greet sid) srv in
  after.2 = [assistant_response welcome_text (b64encode E []) true]
  ∧ sessions after.1 !! sid
    = Some (with_history b
              (conversation_history b
                 ++ [welcome_entry (now_isoformat E (tick w))])).
Proof.
  intros Hb w Haudio after. unfold after.
  rewrite (greet_step_run E srv sid b Hb). simpl. fold w.
  rewrite Haudio, lookup_insert_eq. done.
Qed.

Lemma greeting_without_audio_witness :
  (step (scenario None None None true) (Greet 7)
     (step (scenario None None None true) (Connect 7) boot).1).2
  = [assistant_response welcome_text "" true].
Proof.
  exact (proj1 (greeting_without_audio (scenario None None None true)
    (step (scenario None None None true) (Connect 7) boot).1 7
    {| conversation_history := [system_entry]; session_id := "S0" |}
    eq_refl eq_refl)).
Defined.
